(** * PDF Q&A server: a shallow embedding of [server/index.js]

    The development follows the source file top-down:
    - JavaScript strings as sequences of UTF-16 code units, with the string
      primitives the server uses ([replace] with a global literal or
      character-class regular expression, [trim], [slice], [substring]);
    - [cleanText] and [chunkText];
    - the remote collaborators (embedding model, vector index, file system,
      PDF parser, chat model) as an oracle that answers each call from the
      history of calls made so far, and a small state-and-exception monad for
      the [async] functions;
    - [embedTexts], [deleteSessionVectors] and the handlers of
      [POST /api/upload] and [POST /api/ask]. *)

From Stdlib Require Import String Ascii DecimalString.
From Stdlib Require Import List NArith ZArith Bool Lia.
Import ListNotations.
Open Scope Z_scope.
Open Scope list_scope.

Set Implicit Arguments.

(** ** JavaScript strings *)

Module JsString.

(** A string is the sequence of its UTF-16 code units; the regular
    expressions of [cleanText] have no [u] flag, so they see code units. *)
Definition code_unit := N.
Definition jsstring := list code_unit.

(** An ASCII literal of the source. *)
Definition lit (s : string) : jsstring :=
  map N_of_ascii (list_ascii_of_string s).

Definition space : code_unit := 0x20%N.

(** [s.length] *)
Definition len {A} (s : list A) : Z := Z.of_nat (length s).

(** Truthiness of a string: only the empty string is falsy. *)
Definition truthy (s : jsstring) : bool :=
  match s with [] => false | _ :: _ => true end.

Definition in_range (lo hi c : N) : bool := ((lo <=? c) && (c <=? hi))%N.

(** [\s]: WhiteSpace and LineTerminator of ECMAScript. *)
Definition is_space (c : code_unit) : bool :=
  in_range 0x09 0x0D c || (c =? 0x20)%N || (c =? 0xA0)%N || (c =? 0x1680)%N
  || in_range 0x2000 0x200A c || (c =? 0x2028)%N || (c =? 0x2029)%N
  || (c =? 0x202F)%N || (c =? 0x205F)%N || (c =? 0x3000)%N || (c =? 0xFEFF)%N.

(** Is [p] a prefix of [s]? *)
Fixpoint prefixb (p s : jsstring) : bool :=
  match p, s with
  | [], _ => true
  | _ :: _, [] => false
  | a :: p', c :: s' => (a =? c)%N && prefixb p' s'
  end.

(** [s.replace(/pat/g, rep)] for a literal, non-empty [pat]: scan from the
    left; at a match emit [rep] and resume after the match, otherwise copy one
    code unit.  [skip] counts the code units of a match still to be passed. *)
Fixpoint replaceAll_aux (pat rep : jsstring) (skip : nat) (s : jsstring)
  : jsstring :=
  match s with
  | [] => []
  | c :: s' =>
    match skip with
    | S k => replaceAll_aux pat rep k s'
    | O =>
      if prefixb pat s
      then rep ++ replaceAll_aux pat rep (pred (length pat)) s'
      else c :: replaceAll_aux pat rep O s'
    end
  end.

Definition replaceAll (pat rep s : jsstring) : jsstring :=
  replaceAll_aux pat rep O s.

(** [s.replace(/[class]/g, ' ')] *)
Definition replaceClass (cls : code_unit -> bool) (s : jsstring) : jsstring :=
  map (fun c => if cls c then space else c) s.

(** [s.replace(/\s+/g, ' ')]: [in_run] tells that the previous code unit was
    white space, whose run has already been replaced by one space. *)
Fixpoint collapse_aux (in_run : bool) (s : jsstring) : jsstring :=
  match s with
  | [] => []
  | c :: s' =>
    if is_space c
    then if in_run then collapse_aux true s' else space :: collapse_aux true s'
    else c :: collapse_aux false s'
  end.

Definition collapseSpaces (s : jsstring) : jsstring := collapse_aux false s.

Fixpoint trimStart (s : jsstring) : jsstring :=
  match s with
  | [] => []
  | c :: s' => if is_space c then trimStart s' else s
  end.

Fixpoint trimEnd (s : jsstring) : jsstring :=
  match s with
  | [] => []
  | c :: s' =>
    match trimEnd s' with
    | [] => if is_space c then [] else [c]
    | t => c :: t
    end
  end.

(** [s.trim()] *)
Definition trim (s : jsstring) : jsstring := trimEnd (trimStart s).

(** [s.slice(start, end)], with the relative indexing of negative
    arguments. *)
Definition rel_index (n k : Z) : Z :=
  if k <? 0 then Z.max (n + k) 0 else Z.min k n.

Definition slice {A} (start end_ : Z) (s : list A) : list A :=
  let from := rel_index (len s) start in
  let to := rel_index (len s) end_ in
  firstn (Z.to_nat (to - from)) (skipn (Z.to_nat from) s).

(** [s.substring(0, n)] for a non-negative [n]. *)
Definition substring0 (n : Z) (s : jsstring) : jsstring :=
  firstn (Z.to_nat n) s.

(** Decimal rendering of an array index, as a template literal does. *)
Definition decimal (n : nat) : jsstring :=
  lit (NilZero.string_of_uint (Nat.to_uint n)).

End JsString.
Import JsString.

(** ** [cleanText] and [chunkText] *)

(** The five mis-decoded sequences, read off the bytes of the source file. *)
Definition pat_degrees : jsstring := [0xC2; 0xB0]%N.
Definition pat_angle : jsstring := [0xE2; 0x2C6; 0x20]%N.
Definition pat_triangle : jsstring := [0xE2; 0x2C6; 0x2020]%N.
Definition pat_pi : jsstring := [0xCF; 0x20AC]%N.
Definition pat_sqrt : jsstring := [0xE2; 0x2C6; 0x161]%N.

Definition rep_degrees : jsstring := lit " degrees ".
Definition rep_angle : jsstring := lit "angle ".
Definition rep_triangle : jsstring := lit "triangle ".
Definition rep_pi : jsstring := lit "pi ".
Definition rep_sqrt : jsstring := lit "sqrt ".

Definition is_control (c : code_unit) : bool :=
  in_range 0x0000 0x001F c || in_range 0x007F 0x009F c.
Definition is_general_punctuation : code_unit -> bool := in_range 0x2000 0x206F.
Definition is_super_subscript : code_unit -> bool := in_range 0x2070 0x209F.
Definition is_currency : code_unit -> bool := in_range 0x20A0 0x20CF.
Definition is_letterlike : code_unit -> bool := in_range 0x2100 0x214F.

(** The chain of replacements of [cleanText], before the length checks. *)
Definition replaceSymbols (text : jsstring) : jsstring :=
  replaceAll pat_sqrt rep_sqrt
    (replaceAll pat_pi rep_pi
      (replaceAll pat_triangle rep_triangle
        (replaceAll pat_angle rep_angle
          (replaceAll pat_degrees rep_degrees text)))).

Definition stripBlocks (s : jsstring) : jsstring :=
  replaceClass is_letterlike
    (replaceClass is_currency
      (replaceClass is_super_subscript
        (replaceClass is_general_punctuation
          (replaceClass is_control s)))).

Definition cleaned_of (text : jsstring) : jsstring :=
  trim (collapseSpaces (stripBlocks (replaceSymbols text))).

Definition cleanText (text : jsstring) : jsstring :=
  if negb (truthy text) then []
  else
    let cleaned := cleaned_of text in
    if len cleaned <? 10 then []
    else if len cleaned >? 8000 then substring0 8000 cleaned
    else cleaned.

(** One iteration of the [while] loop of [chunkText]: [None] when the loop
    condition [i < text.length] fails. *)
Definition chunk_step (text : jsstring) (maxLen : Z)
  (st : Z * list jsstring) : option (Z * list jsstring) :=
  let (i, chunks) := st in
  if i <? len text then
    let chunk := slice i (i + maxLen) text in
    let cleanedChunk := cleanText chunk in
    let chunks' :=
      if truthy cleanedChunk then chunks ++ [cleanedChunk] else chunks in
    Some (i + (maxLen - 200), chunks')
  else None.

(** The loop, run for at most [fuel] iterations: [None] when the loop is
    still running after them. *)
Fixpoint chunkText_loop (fuel : nat) (text : jsstring) (maxLen : Z)
  (st : Z * list jsstring) : option (list jsstring) :=
  match chunk_step text maxLen st with
  | None => Some (snd st)
  | Some st' =>
    match fuel with
    | O => None
    | S fuel' => chunkText_loop fuel' text maxLen st'
    end
  end.

(** [chunkText(text, maxLen)] with as many iterations as the text has code
    units; [chunkText_exact] below shows that no run needs more, so that
    [None] here means that the loop never exits. *)
Definition chunkText (text : jsstring) (maxLen : Z) : option (list jsstring) :=
  chunkText_loop (length text) text maxLen (0, []).

(** ** The collaborators and the monad of the [async] functions *)

(** A thrown JavaScript value: its [message], and whether it carries
    [errorDetails] (only logged). *)
Record JsError := { message : jsstring; errorDetails : bool }.

Definition Error (msg : jsstring) : JsError :=
  {| message := msg; errorDetails := false |}.

(** What reading a property of [undefined] or [null] throws. *)
Definition typeError : JsError := Error (lit "TypeError").
(** What [fs.unlink] throws on a path that does not exist. *)
Definition enoent : JsError := Error (lit "ENOENT").

Definition bytes := list Byte.byte.

Inductive Reply (A : Type) : Type :=
| Resolves (a : A)
| Rejects (e : JsError).
Arguments Rejects {A} e.

Inductive Outcome (A : Type) : Type :=
| Returned (a : A)
| Thrown (e : JsError)
| Hangs.
Arguments Thrown {A} e.
Arguments Hangs {A}.

Definition str_eqb (a b : jsstring) : bool :=
  if list_eq_dec N.eq_dec a b then true else false.

(** [a.join(sep)]; an [undefined] element is rendered as the empty string. *)
Fixpoint join (sep : jsstring) (l : list (option jsstring)) : jsstring :=
  match l with
  | [] => []
  | x :: rest =>
    let x' := match x with Some s => s | None => [] end in
    match rest with
    | [] => x'
    | _ :: _ => x' ++ sep ++ join sep rest
    end
  end.

(** [a.map((x, i) => f x i)], counting from [i]. *)
Fixpoint mapi_from {A B} (f : A -> nat -> B) (i : nat) (l : list A) : list B :=
  match l with
  | [] => []
  | x :: rest => f x i :: mapi_from f (S i) rest
  end.

(** The values of [i] in [for (let i = 0; i < n; i += step)]; [fuel]
    bounds their number. *)
Fixpoint indices_from (fuel i step n : nat) : list nat :=
  match fuel with
  | O => []
  | S fuel' =>
    if (i <? n)%nat then i :: indices_from fuel' (i + step) step n else []
  end.

Definition for_indices (n step : nat) : list nat := indices_from n 0 step n.

Section Server.

(** The [values] of an embedding: an array of numbers the server never
    inspects. *)
Variable Vec : Type.

(** Metadata of a vector record; [meta_text] is [validChunks[i]], which is
    [undefined] out of range. *)
Record Metadata := {
  meta_text : option jsstring;
  meta_source : jsstring;
  meta_chunk_index : nat;
  meta_session_id : jsstring;
  meta_uploaded_at : jsstring
}.

Record VectorRecord := {
  rec_id : jsstring;
  rec_values : Vec;
  rec_metadata : Metadata
}.

Record Match := { match_id : jsstring; match_metadata : Metadata }.

(** The result of [batchEmbedContents]: [undefined]/[null], or an object
    whose [embeddings] field is absent or falsy ([None]) or an array, an
    element of which may itself be [undefined]/[null] ([None]). *)
Inductive BatchResult :=
| BatchNullish
| BatchObject (embeddings : option (list (option Vec))).

(** The result of [index.query]: [undefined]/[null], or an object whose
    [matches] field is absent ([None]) or an array. *)
Inductive QueryResponse :=
| QueryNullish
| QueryObject (matches : option (list Match)).

Inductive QueryVector :=
| ZeroVector (dim : nat)
| Given (v : Vec).

Inductive Event :=
| CallBatchEmbed (texts : list jsstring)
| CallEmbed (text : jsstring)
| CallQuery (vector : QueryVector) (topK : Z) (session_id : jsstring)
| CallDeleteMany (ids : list jsstring)
| CallUpsert (records : list VectorRecord)
| CallReadFile (path : jsstring)
| CallPdfParse (data : bytes)
| CallUnlink (path : jsstring)
| CallGenerate (prompt : jsstring)
| Sleep (ms : Z)
| ConsoleWarn
| ConsoleError.

Definition History := list Event.

(** The remote services and the PDF parser answer a call from the history
    of the events before it and the arguments of the call.  For
    [embedContent], [None] is a result without an [embedding]; for
    [pdfParse], [None] is a result without [text]; [clock h i] is
    [new Date().toISOString()] read for record [i] after history [h]. *)
Record Oracle := {
  batchEmbedContents : History -> list jsstring -> Reply BatchResult;
  embedContent : History -> jsstring -> Reply (option Vec);
  query : History -> QueryVector -> Z -> jsstring -> Reply QueryResponse;
  deleteMany : History -> list jsstring -> Reply unit;
  upsert : History -> list VectorRecord -> Reply unit;
  readFile : History -> jsstring -> Reply bytes;
  pdfParse : History -> bytes -> Reply (option jsstring);
  generateContent : History -> jsstring -> Reply jsstring;
  clock : History -> nat -> jsstring
}.

(** The state an [async] function runs in: the events so far and the files
    of the upload directory. *)
Record World := { history : History; files : list jsstring }.

Definition M (A : Type) : Type := World -> World * Outcome A.

Definition ret {A} (a : A) : M A := fun w => (w, Returned a).
Definition throw {A} (e : JsError) : M A := fun w => (w, Thrown e).
Definition hang {A} : M A := fun w => (w, Hangs).

Definition bind {A B} (m : M A) (k : A -> M B) : M B :=
  fun w =>
    match m w with
    | (w', Returned a) => k a w'
    | (w', Thrown e) => (w', Thrown e)
    | (w', Hangs) => (w', Hangs)
    end.

(** [try { m } catch (e) { handler e }] *)
Definition try_catch {A} (m : M A) (handler : JsError -> M A) : M A :=
  fun w =>
    match m w with
    | (w', Thrown e) => handler e w'
    | r => r
    end.

Definition emit (ev : Event) : M unit :=
  fun w => ({| history := history w ++ [ev]; files := files w |}, Returned tt).

(** [await] of a call to a collaborator. *)
Definition call {A} (ev : Event) (reply : History -> Reply A) : M A :=
  fun w =>
    let w' := {| history := history w ++ [ev]; files := files w |} in
    match reply (history w) with
    | Resolves a => (w', Returned a)
    | Rejects e => (w', Thrown e)
    end.

(** [await fs.unlink(path)] *)
Definition unlink (path : jsstring) : M unit :=
  fun w =>
    let h := history w ++ [CallUnlink path] in
    if existsb (str_eqb path) (files w)
    then ({| history := h;
             files := filter (fun p => negb (str_eqb path p)) (files w) |},
          Returned tt)
    else ({| history := h; files := files w |}, Thrown enoent).

End Server.

Arguments ConsoleWarn {Vec}.
Arguments ConsoleError {Vec}.
Arguments BatchNullish {Vec}.
Arguments ret {Vec A} a.
Arguments throw {Vec A} e.
Arguments hang {Vec A}.

Declare Scope js_scope.
Notation "x <- m ;; k" := (bind m (fun x => k))
  (at level 100, m at next level, right associativity) : js_scope.
Notation "m ;; k" := (bind m (fun _ => k))
  (at level 100, right associativity) : js_scope.
Open Scope js_scope.

(** ** The server functions *)

Record File := { file_path : jsstring; originalname : jsstring }.

(** [req] of [POST /api/upload], after [multer] has stored the file. *)
Record UploadRequest := {
  req_file : option File;
  upload_sessionId : option jsstring
}.

(** [req.body] of [POST /api/ask]. *)
Record AskRequest := {
  ask_question : option jsstring;
  ask_sessionId : option jsstring;
  ask_topK : option Z
}.

Record Source := {
  src_source : jsstring;
  src_chunk_index : nat;
  src_session_id : jsstring
}.

Inductive Body :=
| ErrorBody (error : jsstring)
| UploadBody (uploaded_chunks : Z) (session_id : jsstring)
| AnswerBody (answer : jsstring) (sources : list Source)
    (session_id : option jsstring).

Record Response := { status : Z; body : Body }.

Definition json (status : Z) (body : Body) : Response :=
  {| status := status; body := body |}.

(** [path.resolve]: files are named by their resolved path throughout. *)
Definition path_resolve (p : jsstring) : jsstring := p.

Definition no_relevant_information : jsstring :=
  lit "I couldn't find any relevant information in the current document. Please make sure you have uploaded a PDF document for this session.".

Definition systemInstruction : jsstring :=
  lit "You are a helpful assistant. Use the provided context from the uploaded PDF document to answer the question. If the answer is not contained within the context, say that you cannot find the answer in the provided document. Answer concisely and accurately based only on the document content.".

Definition internal_error : jsstring :=
  lit "An internal server error occurred.".

Definition newline : jsstring := [0x0A%N].

(** [xs.map(e => e.values)] on the [embeddings] array: [None] when an
    element is [undefined]/[null], where the property read throws. *)
Fixpoint all_values {Vec} (es : list (option Vec)) : option (list Vec) :=
  match es with
  | [] => Some []
  | None :: _ => None
  | Some v :: rest =>
    match all_values rest with
    | Some vs => Some (v :: vs)
    | None => None
    end
  end.

Definition source_of (m : Match) : Source :=
  {| src_source := meta_source (match_metadata m);
     src_chunk_index := meta_chunk_index (match_metadata m);
     src_session_id := meta_session_id (match_metadata m) |}.

Section Handlers.

Variable Vec : Type.
Variable O : Oracle Vec.

Definition batchSize : nat := 10.

(** The body of [for (const text of batch)] in the [catch] of a batch. *)
Definition embed_single (all : list Vec) (text : jsstring)
  : M Vec (list Vec) :=
  try_catch
    (singleResult <- call (CallEmbed Vec text) (fun h => embedContent O h text);;
     match singleResult with
     | Some values => ret (all ++ [values])
     | None => throw typeError
     end)
    (fun singleError =>
       emit ConsoleError;; emit ConsoleError;; ret all).

Fixpoint embed_individually (batch : list jsstring) (all : list Vec)
  : M Vec (list Vec) :=
  match batch with
  | [] => ret all
  | text :: rest =>
    all' <- embed_single all text;; embed_individually rest all'
  end.

(** The [try]/[catch] of one batch; [all] is [allEmbeddings]. *)
Definition embed_batch (batch : list jsstring) (all : list Vec)
  : M Vec (list Vec) :=
  try_catch
    (result <- call (CallBatchEmbed Vec batch)
                 (fun h => batchEmbedContents O h batch);;
     match result with
     | BatchNullish => throw typeError
     | BatchObject None => emit ConsoleWarn;; ret all
     | BatchObject (Some []) => emit ConsoleWarn;; ret all
     | BatchObject (Some es) =>
       match all_values es with
       | Some embeddings => ret (all ++ embeddings)
       | None => throw typeError
       end
     end)
    (fun batchError =>
       emit ConsoleError;; embed_individually batch all).

(** The [for] loop over the batches, [starts] being the values of [i]. *)
Fixpoint embed_loop (starts : list nat) (cleanedTexts : list jsstring)
  (all : list Vec) : M Vec (list Vec) :=
  match starts with
  | [] => ret all
  | i :: rest =>
    let batch :=
      slice (Z.of_nat i) (Z.of_nat (i + batchSize)) cleanedTexts in
    all' <- embed_batch batch all;;
    (if Z.of_nat (i + batchSize) <? len cleanedTexts
     then emit (Sleep Vec 100) else ret tt);;
    embed_loop rest cleanedTexts all'
  end.

Definition no_valid_text : JsError :=
  Error (lit "No valid text chunks after cleaning").

Definition embedTexts (texts : list jsstring) : M Vec (list Vec) :=
  try_catch
    (let cleanedTexts :=
       filter (fun text => len text >? 0) (map cleanText texts) in
     if len cleanedTexts =? 0 then throw no_valid_text
     else
       embed_loop (for_indices (length cleanedTexts) batchSize)
         cleanedTexts [])
    (fun error =>
       emit ConsoleError;;
       (if errorDetails error then emit ConsoleError else ret tt);;
       throw error).

Fixpoint delete_loop (starts : list nat) (vectorIds : list jsstring)
  : M Vec unit :=
  match starts with
  | [] => ret tt
  | i :: rest =>
    let batch := slice (Z.of_nat i) (Z.of_nat (i + 1000)) vectorIds in
    call (CallDeleteMany Vec batch) (fun h => deleteMany O h batch);;
    delete_loop rest vectorIds
  end.

(** The [try] block of [deleteSessionVectors]. *)
Definition deleteSessionVectors_try (sessionId : jsstring) : M Vec unit :=
  queryResponse <- call (CallQuery (ZeroVector Vec 768) 10000 sessionId)
                     (fun h => query O h (ZeroVector Vec 768) 10000 sessionId);;
  match queryResponse with
  | QueryNullish => throw typeError
  | QueryObject None => ret tt
  | QueryObject (Some []) => ret tt
  | QueryObject (Some matches) =>
    let vectorIds := map match_id matches in
    delete_loop (for_indices (length vectorIds) 1000) vectorIds
  end.

Definition deleteSessionVectors (sessionId : jsstring) : M Vec unit :=
  try_catch (deleteSessionVectors_try sessionId)
    (fun error => emit ConsoleError).

(** The vector records of the upload handler; [now i] is the time read
    while record [i] is built. *)
Definition buildVectors (sessionId source : jsstring)
  (validChunks : list jsstring) (embeddings : list Vec)
  (now : nat -> jsstring) : list (VectorRecord Vec) :=
  let minLength := Z.min (len embeddings) (len validChunks) in
  mapi_from
    (fun emb i =>
       {| rec_id := sessionId ++ lit "_" ++ decimal i;
          rec_values := emb;
          rec_metadata :=
            {| meta_text := nth_error validChunks i;
               meta_source := source;
               meta_chunk_index := i;
               meta_session_id := sessionId;
               meta_uploaded_at := now i |} |})
    0%nat (slice 0 minLength embeddings).

Fixpoint upsert_loop (starts : list nat) (vectors : list (VectorRecord Vec))
  : M Vec unit :=
  match starts with
  | [] => ret tt
  | i :: rest =>
    let batch := slice (Z.of_nat i) (Z.of_nat (i + 100)) vectors in
    call (CallUpsert batch) (fun h => upsert O h batch);;
    upsert_loop rest vectors
  end.

(** The upload handler from [fs.readFile] on. *)
Definition upload_process (file : File) (sessionId : jsstring)
  : M Vec Response :=
  let filePath := path_resolve (file_path file) in
  data <- call (CallReadFile Vec filePath) (fun h => readFile O h filePath);;
  pdfData <- call (CallPdfParse Vec data) (fun h => pdfParse O h data);;
  let text := match pdfData with Some t => t | None => [] end in
  if negb (truthy (trim text)) then
    unlink filePath;;
    ret (json 400 (ErrorBody (lit "PDF contains no readable text content.")))
  else
    match chunkText text 1000 with
    | None => hang
    | Some chunks =>
      let validChunks :=
        filter (fun chunk => truthy chunk && negb (str_eqb (trim chunk) []))
          chunks in
      if len validChunks =? 0 then
        unlink filePath;;
        ret (json 400 (ErrorBody
          (lit "PDF contains no processable text content after cleaning.")))
      else
        embeddings <- embedTexts validChunks;;
        vectors <- (fun w =>
          (w, Returned (buildVectors sessionId (originalname file)
                          validChunks embeddings (clock O (history w)))));;
        upsert_loop (for_indices (length vectors) 100) vectors;;
        unlink filePath;;
        ret (json 200 (UploadBody (len vectors) sessionId))
    end.

(** The [try] block of the upload handler. *)
Definition upload_try (req : UploadRequest) : M Vec Response :=
  match req_file req with
  | None => ret (json 400 (ErrorBody (lit "No file uploaded")))
  | Some file =>
    match upload_sessionId req with
    | None => ret (json 400 (ErrorBody (lit "Missing session ID")))
    | Some sessionId =>
      if negb (truthy sessionId)
      then ret (json 400 (ErrorBody (lit "Missing session ID")))
      else
        deleteSessionVectors sessionId;;
        upload_process file sessionId
    end
  end.

(** The [catch] block of the upload handler. *)
Definition upload_catch (req : UploadRequest) (err : JsError)
  : M Vec Response :=
  emit ConsoleError;;
  emit ConsoleError;;
  try_catch
    (match req_file req with
     | Some file =>
       if truthy (file_path file)
       then unlink (path_resolve (file_path file))
       else ret tt
     | None => ret tt
     end)
    (fun unlinkError => emit ConsoleError);;
  let errorMessage :=
    if truthy (message err) then message err else internal_error in
  ret (json 500 (ErrorBody errorMessage)).

(** [app.post("/api/upload", ...)] *)
Definition upload (req : UploadRequest) : M Vec Response :=
  try_catch (upload_try req) (upload_catch req).

(** The [try] block of the ask handler. *)
Definition ask_try (req : AskRequest) : M Vec Response :=
  let topK := match ask_topK req with Some k => k | None => 4 end in
  match ask_question req with
  | None => ret (json 400 (ErrorBody (lit "Missing question")))
  | Some question =>
    if negb (truthy question)
    then ret (json 400 (ErrorBody (lit "Missing question")))
    else
      match ask_sessionId req with
      | None => ret (json 400 (ErrorBody (lit "Missing session ID")))
      | Some sessionId =>
        if negb (truthy sessionId)
        then ret (json 400 (ErrorBody (lit "Missing session ID")))
        else
          let cleanedQuestion := cleanText question in
          if negb (truthy cleanedQuestion)
          then ret (json 400
                 (ErrorBody (lit "Question contains no valid content")))
          else
            qEmbResp <- call (CallEmbed Vec cleanedQuestion)
                          (fun h => embedContent O h cleanedQuestion);;
            match qEmbResp with
            | None => throw typeError
            | Some qEmb =>
              queryResp <- call (CallQuery (Given qEmb) topK sessionId)
                             (fun h => query O h (Given qEmb) topK sessionId);;
              match queryResp with
              | QueryNullish => throw typeError
              | QueryObject m =>
                let matches := match m with Some l => l | None => [] end in
                if len matches =? 0
                then ret (json 200
                       (AnswerBody no_relevant_information [] None))
                else
                  let contexts :=
                    join (newline ++ lit "---" ++ newline)
                      (map (fun m => meta_text (match_metadata m)) matches) in
                  let userPrompt :=
                    lit "Context from the uploaded document:" ++ newline
                    ++ contexts ++ newline ++ newline
                    ++ lit "Question: " ++ question in
                  let fullPrompt :=
                    systemInstruction ++ newline ++ newline ++ userPrompt in
                  answer <- call (CallGenerate Vec fullPrompt)
                              (fun h => generateContent O h fullPrompt);;
                  ret (json 200
                    (AnswerBody answer (map source_of matches)
                       (Some sessionId)))
              end
            end
      end
  end.

(** [app.post("/api/ask", ...)] *)
Definition ask (req : AskRequest) : M Vec Response :=
  try_catch (ask_try req)
    (fun err =>
       emit ConsoleError;;
       let errorMessage :=
         if truthy (message err) then message err else internal_error in
       ret (json 500 (ErrorBody errorMessage))).

End Handlers.

(** ** The API key check and the session routes *)

(** [s.split(sep)] for a one-character separator. *)
Fixpoint split (sep : code_unit) (s : jsstring) : list jsstring :=
  match s with
  | [] => [[]]
  | c :: s' =>
    if (c =? sep)%N then [] :: split sep s'
    else
      match split sep s' with
      | field :: fields => (c :: field) :: fields
      | [] => [[c]]
      end
  end.

(** [process.env.SERVER_API_KEY || "dev_token"] *)
Definition SERVER_API_KEY (env : option jsstring) : jsstring :=
  match env with
  | Some k => if truthy k then k else lit "dev_token"
  | None => lit "dev_token"
  end.

(** [req.headers["x-api-key"] || req.headers["authorization"]] *)
Definition presented_key (x_api_key authorization : option jsstring)
  : option jsstring :=
  match x_api_key with
  | Some k => if truthy k then Some k else authorization
  | None => authorization
  end.

(** [key.startsWith("Bearer ") ? key.split(" ")[1] : key] *)
Definition token_of (key : jsstring) : option jsstring :=
  if prefixb (lit "Bearer ") key then nth_error (split space key) 1
  else Some key.

Definition opt_str_eqb (a : option jsstring) (b : jsstring) : bool :=
  match a with Some a => str_eqb a b | None => false end.

(** What the middleware does: answer with a status and an error, or call
    [next()]. *)
Inductive Gate :=
| Refuse (status : Z) (error : jsstring)
| Next.

Definition requireApiKey (server_key : jsstring)
  (x_api_key authorization : option jsstring) : Gate :=
  match presented_key x_api_key authorization with
  | None => Refuse 401 (lit "Missing API key")
  | Some key =>
    if negb (truthy key) then Refuse 401 (lit "Missing API key")
    else if negb (opt_str_eqb (token_of key) server_key)
    then Refuse 403 (lit "Invalid API key")
    else Next
  end.

(** The bodies of the two session routes. *)
Inductive SessionBody :=
| SessionError (error : jsstring)
| SessionCleared (message : jsstring)
| SessionExists (document uploaded_at session_id : jsstring)
| SessionMissing (session_id : jsstring).

Record SessionResponse := { session_status : Z; session_body : SessionBody }.

Definition session_json (status : Z) (body : SessionBody) : SessionResponse :=
  {| session_status := status; session_body := body |}.

Section SessionRoutes.

Variable Vec : Type.
Variable O : Oracle Vec.

(** The [catch] block the two routes share. *)
Definition session_catch (err : JsError) : M Vec SessionResponse :=
  emit ConsoleError;;
  let errorMessage :=
    if truthy (message err) then message err else internal_error in
  ret (session_json 500 (SessionError errorMessage)).


(** [app.get("/api/session/:sessionId", ...)], given
    [req.params.sessionId]. *)
Definition session_info (sessionId : jsstring) : M Vec SessionResponse :=
  try_catch
    (queryResponse <- call (CallQuery (ZeroVector Vec 768) 1 sessionId)
                        (fun h => query O h (ZeroVector Vec 768) 1 sessionId);;
     match queryResponse with
     | QueryNullish => throw typeError
     | QueryObject (Some (firstMatch :: _)) =>
       ret (session_json 200
              (SessionExists
                 (meta_source (match_metadata firstMatch))
                 (meta_uploaded_at (match_metadata firstMatch))
                 sessionId))
     | QueryObject _ => ret (session_json 200 (SessionMissing sessionId))
     end)
    session_catch.

End SessionRoutes.

(** ** Auxiliary notions for the statements *)

(** [k] iterations of the loop of [chunkText], when it runs that long. *)
Fixpoint chunk_steps (k : nat) (text : jsstring) (maxLen : Z)
  (st : Z * list jsstring) : option (Z * list jsstring) :=
  match k with
  | O => Some st
  | S k' =>
    match chunk_step text maxLen st with
    | Some st' => chunk_steps k' text maxLen st'
    | None => None
    end
  end.

(** Does [p] occur in [s] as a contiguous subsequence? *)
Fixpoint occurs (p s : jsstring) : bool :=
  match s with
  | [] => prefixb p []
  | _ :: s' => prefixb p s || occurs p s'
  end.

(** No code unit of [q] is a code unit of [r]. *)
Definition disjointb (q r : jsstring) : bool :=
  forallb (fun a => negb (existsb (N.eqb a) r)) q.

(** The code units the character-class replacements of [cleanText] turn
    into a space. *)
Definition stripped (c : code_unit) : bool :=
  is_control c || is_general_punctuation c || is_super_subscript c
  || is_currency c || is_letterlike c.

(** The code units [cleanText] keeps as they are wherever they stand:
    neither white space nor in a stripped block. *)
Definition survives (c : code_unit) : bool :=
  negb (is_space c) && negb (stripped c).

Definition count_surviving (s : jsstring) : nat :=
  length (filter survives s).

(** White space in normal form: every white-space code unit is a plain
    space and no two are adjacent; [prev] tells that a space precedes. *)
Fixpoint normal_spaces (prev : bool) (s : jsstring) : bool :=
  match s with
  | [] => true
  | c :: s' =>
    if is_space c
    then (c =? space)%N && negb prev && normal_spaces true s'
    else normal_spaces false s'
  end.

Definition starts_clean (s : jsstring) : bool :=
  match s with [] => true | c :: _ => negb (is_space c) end.

(** A printable character: neither a control character nor white space. *)
Definition printable (c : code_unit) : bool :=
  negb (is_control c) && negb (is_space c).

(** Ten euro signs. *)
Definition ten_euros : jsstring := repeat 0x20AC%N 10.

(** The mis-decoded angle sign as it really comes out of a Windows-1252
    reading of U+2220 (with a no-break space), followed by a phrase. *)
Definition angle_phrase : jsstring :=
  [0xE2; 0x2C6; 0xA0]%N ++ lit "hello world".

(** The mis-decoded triangle sign (Windows-1252 reading of U+2206),
    followed by the same phrase. *)
Definition triangle_phrase : jsstring :=
  [0xE2; 0x2C6; 0x2020]%N ++ lit "hello world".

(** A text of a thousand letters [a]. *)
Definition thousand_a : jsstring := repeat 0x61%N 1000.

(** *** Outcomes of the [async] functions *)

Definition never_hangs {Vec A} (m : M Vec A) : Prop :=
  forall w, snd (m w) <> Hangs.

Definition always_returns {Vec A} (m : M Vec A) : Prop :=
  forall w, exists a, snd (m w) = Returned a.

(** When [m] returns, the file [p] is gone; [m] may throw, and never hangs. *)
Definition returns_without {Vec A} (p : jsstring) (m : M Vec A) : Prop :=
  forall w,
    match snd (m w) with
    | Returned _ => ~ In p (files (fst (m w)))
    | Thrown _ => True
    | Hangs => False
    end.

(** *** Failed batches *)

(** The batch call makes the [try] block throw: the call rejects, or its
    result is [undefined]/[null], or a non-empty [embeddings] array has an
    [undefined]/[null] element. *)
Definition batch_throws {Vec} (reply : Reply (BatchResult Vec)) : bool :=
  match reply with
  | Rejects _ => true
  | Resolves BatchNullish => true
  | Resolves (BatchObject None) => false
  | Resolves (BatchObject (Some [])) => false
  | Resolves (BatchObject (Some es)) =>
    match all_values es with Some _ => false | None => true end
  end.


(** Every text of a batch is retried on its own, in order, from history
    [h]: one single-item call per text; a call that resolves with an
    embedding contributes its values, a call that fails contributes nothing
    and leaves two error lines. *)
Inductive Retried {Vec} (O : Oracle Vec)
  : History Vec -> list jsstring -> History Vec -> list Vec -> Prop :=
| Retried_done h : Retried O h [] h []
| Retried_embedded h text rest values h' vs :
    embedContent O h text = Resolves (Some values) ->
    Retried O (h ++ [CallEmbed Vec text]) rest h' vs ->
    Retried O h (text :: rest) h' (values :: vs)
| Retried_skipped h text rest h' vs :
    (embedContent O h text = Resolves None
     \/ exists e, embedContent O h text = Rejects e) ->
    Retried O (h ++ [CallEmbed Vec text] ++ [ConsoleError] ++ [ConsoleError])
      rest h' vs ->
    Retried O h (text :: rest) h' vs.


(** *** Sample collaborators and requests *)

Definition remote_down : JsError := Error (lit "503 Service Unavailable").

(** Every remote call rejects. *)
Definition unavailable : Oracle nat :=
  {| batchEmbedContents := fun _ _ => Rejects remote_down;
     embedContent := fun _ _ => Rejects remote_down;
     query := fun _ _ _ _ => Rejects remote_down;
     deleteMany := fun _ _ => Rejects remote_down;
     upsert := fun _ _ => Rejects remote_down;
     readFile := fun _ _ => Rejects remote_down;
     pdfParse := fun _ _ => Rejects remote_down;
     generateContent := fun _ _ => Rejects remote_down;
     clock := fun _ _ => lit "2024-01-01T00:00:00.000Z" |}.

(** The batch call returns an empty [embeddings] array; single-item calls
    work, as does an index without vectors. *)
Definition empty_batches : Oracle nat :=
  {| batchEmbedContents := fun _ _ => Resolves (BatchObject (Some []));
     embedContent := fun _ _ => Resolves (Some 7%nat);
     query := fun _ _ _ _ => Resolves (QueryObject (Some []));
     deleteMany := fun _ _ => Resolves tt;
     upsert := fun _ _ => Resolves tt;
     readFile := fun _ _ => Resolves [];
     pdfParse := fun _ _ => Resolves (Some (lit "hello world, hello"));
     generateContent := fun _ _ => Resolves (lit "answer");
     clock := fun _ _ => lit "2024-01-01T00:00:00.000Z" |}.

(** The batch call rejects; the single-item call works except on the text
    ["hello there, moon"]. *)
Definition batch_down : Oracle nat :=
  {| batchEmbedContents := fun _ _ => Rejects remote_down;
     embedContent := fun _ text =>
       if str_eqb text (lit "hello there, moon")
       then Rejects remote_down else Resolves (Some (length text));
     query := fun _ _ _ _ => Resolves (QueryObject (Some []));
     deleteMany := fun _ _ => Resolves tt;
     upsert := fun _ _ => Resolves tt;
     readFile := fun _ _ => Resolves [];
     pdfParse := fun _ _ => Resolves (Some (lit "hello world, hello"));
     generateContent := fun _ _ => Resolves (lit "answer");
     clock := fun _ _ => lit "2024-01-01T00:00:00.000Z" |}.

(** Every service works; an embedding is stood for by the length of its
    text, and the index holds no vector. *)
Definition healthy : Oracle nat :=
  {| batchEmbedContents := fun _ texts =>
       Resolves (BatchObject (Some (map (fun t => Some (length t)) texts)));
     embedContent := fun _ text => Resolves (Some (length text));
     query := fun _ _ _ _ => Resolves (QueryObject (Some []));
     deleteMany := fun _ _ => Resolves tt;
     upsert := fun _ _ => Resolves tt;
     readFile := fun _ _ => Resolves [];
     pdfParse := fun _ _ => Resolves (Some (lit "hello world, hello"));
     generateContent := fun _ _ => Resolves (lit "answer");
     clock := fun _ _ => lit "2024-01-01T00:00:00.000Z" |}.

Definition temp_file : File :=
  {| file_path := lit "uploads/3f2a"; originalname := lit "paper.pdf" |}.

(** The world in which a handler starts after [multer] stored the file. *)
Definition fresh_world : World nat :=
  {| history := []; files := [lit "uploads/3f2a"] |}.

Definition upload_without_session : UploadRequest :=
  {| req_file := Some temp_file; upload_sessionId := None |}.

Definition upload_S1 : UploadRequest :=
  {| req_file := Some temp_file; upload_sessionId := Some (lit "S1") |}.

Definition ask_S2 : AskRequest :=
  {| ask_question := Some (lit "What is the main result?");
     ask_sessionId := Some (lit "S2");
     ask_topK := None |}.

(** The status of the response a handler run ends with. *)
Definition status_of {Vec} (r : World Vec * Outcome Response) : option Z :=
  match snd r with
  | Returned resp => Some (status resp)
  | _ => None
  end.

(** *** Notions for the further properties *)

(** The number of windows of [step] code units it takes to pass [n]. *)
Definition window_count (n step : Z) : Z := (n + step - 1) / step.

(** The consecutive batches of [size] elements a [for] loop slices off. *)
Definition batches_of {A} (size : nat) (l : list A) : list (list A) :=
  map (fun i => slice (Z.of_nat i) (Z.of_nat (i + size)) l)
    (for_indices (length l) size).

(** The arguments of the batch embed calls of a history, in order. *)
Fixpoint batch_calls {Vec} (h : History Vec) : list (list jsstring) :=
  match h with
  | [] => []
  | CallBatchEmbed _ texts :: h' => texts :: batch_calls h'
  | _ :: h' => batch_calls h'
  end.

(** The ids handed to [deleteMany] in a history, in order. *)
Fixpoint deleted_ids {Vec} (h : History Vec) : list jsstring :=
  match h with
  | [] => []
  | CallDeleteMany _ ids :: h' => ids ++ deleted_ids h'
  | _ :: h' => deleted_ids h'
  end.


(** Events of the embedding client. *)
Definition embedding_event {Vec} (ev : Event Vec) : bool :=
  match ev with
  | CallBatchEmbed _ _ | CallEmbed _ _ | Sleep _ _
  | ConsoleWarn | ConsoleError => true
  | _ => false
  end.

(** Events of the deletion of the vectors of session [sessionId]. *)
Definition deletion_event {Vec} (sessionId : jsstring) (ev : Event Vec)
  : bool :=
  match ev with
  | CallQuery (ZeroVector _ _) _ s => str_eqb s sessionId
  | CallDeleteMany _ _ | ConsoleError => true
  | _ => false
  end.

(** [m] leaves the files alone and adds only events that satisfy [P]. *)
Definition emits {Vec A} (P : Event Vec -> bool) (m : M Vec A) : Prop :=
  forall w, exists evs,
    fst (m w) = {| history := history w ++ evs; files := files w |}
    /\ forallb P evs = true.

(** [m] adds events and removes files, at most. *)
Definition grows {Vec A} (m : M Vec A) : Prop :=
  forall w, exists evs, history (fst (m w)) = history w ++ evs.


(** The first thing [m] does is the event [ev]. *)
Definition starts_with {Vec A} (ev : Event Vec) (m : M Vec A) : Prop :=
  forall w, exists evs, history (fst (m w)) = history w ++ ev :: evs.


Definition sample_metadata (i : nat) : Metadata :=
  {| meta_text := Some (lit "hello world, hello");
     meta_source := lit "paper.pdf";
     meta_chunk_index := i;
     meta_session_id := lit "S1";
     meta_uploaded_at := lit "2024-01-01T00:00:00.000Z" |}.

Definition sample_matches : list Match :=
  [ {| match_id := lit "S1_0"; match_metadata := sample_metadata 0 |};
    {| match_id := lit "S1_1"; match_metadata := sample_metadata 1 |} ].

(** Every service works and the index holds two vectors of the session. *)
Definition indexed : Oracle nat :=
  {| batchEmbedContents := fun _ texts =>
       Resolves (BatchObject (Some (map (fun t => Some (length t)) texts)));
     embedContent := fun _ text => Resolves (Some (length text));
     query := fun _ _ _ _ => Resolves (QueryObject (Some sample_matches));
     deleteMany := fun _ _ => Resolves tt;
     upsert := fun _ _ => Resolves tt;
     readFile := fun _ _ => Resolves [];
     pdfParse := fun _ _ => Resolves (Some (lit "hello world, hello"));
     generateContent := fun _ _ => Resolves (lit "It is 42.");
     clock := fun _ _ => lit "2024-01-01T00:00:00.000Z" |}.

(** Every service works; the parser finds only a control character, a
    space and a form feed in the document. *)
Definition blank_pdf : Oracle nat :=
  {| batchEmbedContents := fun _ texts =>
       Resolves (BatchObject (Some (map (fun t => Some (length t)) texts)));
     embedContent := fun _ text => Resolves (Some (length text));
     query := fun _ _ _ _ => Resolves (QueryObject (Some []));
     deleteMany := fun _ _ => Resolves tt;
     upsert := fun _ _ => Resolves tt;
     readFile := fun _ _ => Resolves [];
     pdfParse := fun _ _ => Resolves (Some [0x01; 0x20; 0x0C]%N);
     generateContent := fun _ _ => Resolves (lit "answer");
     clock := fun _ _ => lit "2024-01-01T00:00:00.000Z" |}.

(** The world of the sample upload against [healthy] once its one chunk is
    embedded. *)
Definition healthy_embedded : World nat :=
  {| history :=
       [CallQuery (ZeroVector nat 768) 10000 (lit "S1");
        CallReadFile nat (lit "uploads/3f2a");
        CallPdfParse nat [];
        CallBatchEmbed nat [lit "hello world, hello"]];
     files := [lit "uploads/3f2a"] |}.

(* ================================================================== *)
(** * Properties *)

(** ** Strings *)

Lemma len_nonneg {A} (s : list A) : 0 <= len s.
Proof. unfold len. lia. Qed.

Lemma slice_all {A} (s : list A) (n : Z) :
  len s <= n -> slice 0 n s = s.
Proof.
  intros Hn. pose proof (len_nonneg s) as H0.
  unfold slice, rel_index.
  replace (0 <? 0) with false by reflexivity.
  destruct (n <? 0) eqn:E; [apply Z.ltb_lt in E; lia|].
  rewrite (Z.min_l 0 (len s)) by lia. rewrite (Z.min_r n (len s)) by lia.
  simpl. rewrite Z.sub_0_r. unfold len. rewrite Nat2Z.id.
  apply firstn_all.
Qed.

(** ** The chunker *)

Lemma chunkText_loop_more_fuel text maxLen :
  forall fuel st r,
    chunkText_loop fuel text maxLen st = Some r ->
    forall fuel', (fuel <= fuel')%nat ->
    chunkText_loop fuel' text maxLen st = Some r.
Proof.
  induction fuel as [|fuel IH]; intros st r H fuel' Hle.
  - destruct fuel'; simpl in *;
      destruct (chunk_step text maxLen st); congruence.
  - destruct fuel' as [|fuel']; [lia|]. simpl in *.
    destruct (chunk_step text maxLen st); [|assumption].
    apply IH with (fuel' := fuel') in H; [assumption | lia].
Qed.

Lemma chunkText_loop_terminates text maxLen :
  200 < maxLen ->
  forall fuel i chunks,
    len text - i <= Z.of_nat fuel ->
    exists r, chunkText_loop fuel text maxLen (i, chunks) = Some r.
Proof.
  intros Hmax. induction fuel as [|fuel IH]; intros i chunks Hfuel.
  - simpl. destruct (i <? len text) eqn:E.
    + apply Z.ltb_lt in E. lia.
    + eexists. reflexivity.
  - simpl. destruct (i <? len text) eqn:E.
    + apply IH. lia.
    + eexists. reflexivity.
Qed.

Lemma chunkText_loop_diverges text maxLen :
  maxLen <= 200 ->
  forall fuel i chunks,
    i < len text ->
    chunkText_loop fuel text maxLen (i, chunks) = None.
Proof.
  intros Hmax. induction fuel as [|fuel IH]; intros i chunks Hi;
    simpl; (destruct (i <? len text) eqn:E;
            [|apply Z.ltb_ge in E; lia]).
  - reflexivity.
  - apply IH. lia.
Qed.

Lemma chunk_steps_stuck text maxLen :
  maxLen <= 200 -> text <> [] ->
  forall k i chunks, i <= 0 ->
    exists chunks',
      chunk_steps k text maxLen (i, chunks)
      = Some (i + Z.of_nat k * (maxLen - 200), chunks').
Proof.
  intros Hmax Htext.
  assert (Hlen : 0 < len text).
  { destruct text; [congruence|]. unfold len. simpl. lia. }
  induction k as [|k IH]; intros i chunks Hi.
  - exists chunks. simpl. f_equal. f_equal. lia.
  - rewrite Nat2Z.inj_succ. cbn [chunk_steps chunk_step].
    destruct (i <? len text) eqn:E; [|apply Z.ltb_ge in E; lia].
    edestruct (IH (i + (maxLen - 200))) as [chunks' Hk]; [lia|].
    exists chunks'. rewrite Hk. f_equal. f_equal. ring.
Qed.

(** [chunkText] gives the loop all the iterations it can need: whatever a
    run with any amount of fuel returns, [chunkText] returns. *)
Lemma chunkText_exact text maxLen fuel r :
  chunkText_loop fuel text maxLen (0, []) = Some r ->
  chunkText text maxLen = Some r.
Proof.
  intros H. unfold chunkText.
  destruct (Z_lt_le_dec 200 maxLen) as [Hbig|Hsmall].
  - destruct (@chunkText_loop_terminates text maxLen Hbig (length text) 0 [])
      as [r' Hr']; [unfold len; lia|].
    rewrite Hr'.
    pose proof (@chunkText_loop_more_fuel _ _ _ _ _ H
                  (Nat.max fuel (length text)) (Nat.le_max_l _ _)) as H1.
    pose proof (@chunkText_loop_more_fuel _ _ _ _ _ Hr'
                  (Nat.max fuel (length text)) (Nat.le_max_r _ _)) as H2.
    congruence.
  - destruct text as [|c text].
    + destruct fuel; simpl in *; assumption.
    + rewrite chunkText_loop_diverges in H; [discriminate|assumption|].
      unfold len. cbn [length]. lia.
Qed.

Lemma chunkText_1000_total text : exists chunks, chunkText text 1000 = Some chunks.
Proof.
  apply chunkText_loop_terminates; [lia | unfold len; lia].
Qed.

(** C10: for [maxLen > 200] the loop of [chunkText] exits, after at most
    [text.length] iterations, for every text; for a non-empty text and
    [maxLen <= 200] the start offset after [k] iterations is
    [k * (maxLen - 200) <= 0], the loop is still running, and no amount of
    iterations makes it return. *)
Theorem chunkText_termination (text : jsstring) (maxLen : Z) :
  (200 < maxLen ->
   exists chunks,
     chunkText text maxLen = Some chunks /\
     forall fuel, (length text <= fuel)%nat ->
       chunkText_loop fuel text maxLen (0, []) = Some chunks)
  /\
  (text <> [] -> maxLen <= 200 ->
   (forall k, exists chunks,
       chunk_steps k text maxLen (0, [])
       = Some (Z.of_nat k * (maxLen - 200), chunks)
       /\ Z.of_nat k * (maxLen - 200) <= 0 < len text)
   /\ (forall fuel, chunkText_loop fuel text maxLen (0, []) = None)
   /\ chunkText text maxLen = None).
Proof.
  split.
  - intros Hmax.
    destruct (@chunkText_loop_terminates text maxLen Hmax (length text) 0 [])
      as [r Hr]; [unfold len; lia|].
    exists r. split; [exact Hr|].
    intros fuel Hfuel. eapply chunkText_loop_more_fuel; eassumption.
  - intros Htext Hmax.
    assert (Hlen : 0 < len text).
    { destruct text; [congruence|]. unfold len. simpl. lia. }
    split; [|split].
    + intros k.
      destruct (@chunk_steps_stuck text maxLen Hmax Htext k 0 [])
        as [chunks Hk]; [lia|].
      exists chunks. split; [exact Hk|]. nia.
    + intros fuel. apply chunkText_loop_diverges; assumption.
    + apply chunkText_loop_diverges; assumption.
Qed.

Lemma chunkText_termination_witness :
  (exists chunks,
     chunkText (lit "hello") 1000 = Some chunks /\
     forall fuel, (length (lit "hello") <= fuel)%nat ->
       chunkText_loop fuel (lit "hello") 1000 (0, []) = Some chunks)
  /\
  ((forall k, exists chunks,
       chunk_steps k (lit "hello") 200 (0, [])
       = Some (Z.of_nat k * (200 - 200), chunks)
       /\ Z.of_nat k * (200 - 200) <= 0 < len (lit "hello"))
   /\ (forall fuel, chunkText_loop fuel (lit "hello") 200 (0, []) = None)
   /\ chunkText (lit "hello") 200 = None).
Proof.
  split.
  - apply (proj1 (chunkText_termination (lit "hello") 1000)). lia.
  - apply (proj2 (chunkText_termination (lit "hello") 200)).
    + discriminate.
    + lia.
Defined.

(** C2, as stated, fails: a text of exactly [maxLen = 1000] code units
    yields two chunks, the text itself and its last 200 code units. *)
Lemma chunkText_full_window_two_chunks :
  len thousand_a <= 1000 /\
  chunkText thousand_a 1000 = Some [thousand_a; repeat 0x61%N 200].
Proof. split; vm_compute; [discriminate | reflexivity]. Qed.

(** C2, amended: for a text of at most [maxLen - 200] code units, the loop
    of [chunkText] runs at most once, on the whole text: the result is the
    single chunk [cleanText text], or no chunk when normalization rejects the
    text (or the text is empty). *)
Theorem chunkText_short_text (text : jsstring) (maxLen : Z) :
  len text <= maxLen - 200 ->
  chunkText text maxLen
  = Some (if truthy (cleanText text) then [cleanText text] else []).
Proof.
  intros Hlen. unfold chunkText.
  destruct text as [|c text]; [reflexivity|].
  set (t := c :: text) in *.
  assert (Hpos : 0 < len t) by (unfold len, t; simpl; lia).
  change (length t) with (S (length text)).
  simpl. destruct (0 <? len t) eqn:E; [|apply Z.ltb_ge in E; lia].
  rewrite slice_all by lia.
  destruct text; simpl;
    (destruct (maxLen - 200 <? len t) eqn:E2;
     [apply Z.ltb_lt in E2; lia|]);
    destruct (truthy (cleanText t)); reflexivity.
Qed.

Lemma chunkText_short_text_witness :
  chunkText (lit "hello world, hello") 1000
  = Some (if truthy (cleanText (lit "hello world, hello"))
          then [cleanText (lit "hello world, hello")] else []).
Proof.
  apply chunkText_short_text.
  vm_compute. discriminate.
Defined.

(** ** String primitives *)

Lemma prefixb_split p : forall s,
  prefixb p s = true -> s = p ++ skipn (length p) s.
Proof.
  induction p as [|a p IH]; intros [|c s] H; simpl in *;
    try reflexivity; try discriminate.
  apply andb_true_iff in H. destruct H as [Hac Hp].
  apply N.eqb_eq in Hac. subst. f_equal. apply IH. assumption.
Qed.

Lemma prefixb_nil_r q : prefixb q [] = true -> q = [].
Proof. destruct q; simpl; congruence. Qed.

Lemma disjointb_spec q r :
  disjointb q r = true -> forall a, In a q -> ~ In a r.
Proof.
  unfold disjointb. rewrite forallb_forall. intros H a Ha Hr.
  specialize (H a Ha). apply negb_true_iff in H.
  assert (existsb (N.eqb a) r = true) as E.
  { apply existsb_exists. exists a. split; [assumption | apply N.eqb_refl]. }
  congruence.
Qed.

Lemma disjointb_tail a q r : disjointb (a :: q) r = true -> disjointb q r = true.
Proof. unfold disjointb. simpl. intros H. apply andb_true_iff in H. tauto. Qed.

Lemma disjointb_head a q r r0 :
  disjointb (a :: q) (r0 :: r) = true -> (a =? r0)%N = false.
Proof.
  unfold disjointb. simpl. intros H. apply andb_true_iff in H.
  destruct H as [H _]. apply negb_true_iff in H.
  apply orb_false_iff in H. tauto.
Qed.

(** A prefix of the output that avoids the replacement text is a prefix of
    the input. *)
Lemma prefixb_replaceAll_inv p r0 r :
  forall q s,
    disjointb q (r0 :: r) = true ->
    prefixb q (replaceAll_aux p (r0 :: r) 0 s) = true ->
    prefixb q s = true.
Proof.
  induction q as [|a q IH]; intros s Hd H; [reflexivity|].
  destruct s as [|c s]; [simpl in H; discriminate|].
  cbn [replaceAll_aux] in H.
  destruct (prefixb p (c :: s)).
  - simpl in H. rewrite (disjointb_head _ _ _ _ Hd) in H. discriminate.
  - simpl in H. apply andb_true_iff in H. destruct H as [Hac Hq].
    simpl. rewrite Hac. simpl. apply (IH s); [|assumption].
    eapply disjointb_tail; eassumption.
Qed.

Lemma occurs_app_disjoint a q r :
  forall s, disjointb (a :: q) r = true ->
    occurs (a :: q) (r ++ s) = occurs (a :: q) s.
Proof.
  induction r as [|r0 r IH]; intros s Hd; [reflexivity|].
  cbn [app occurs].
  assert (Hhd : prefixb (a :: q) (r0 :: r ++ s) = false).
  { simpl. rewrite (disjointb_head _ _ _ _ Hd). reflexivity. }
  rewrite Hhd. simpl. apply IH.
  unfold disjointb in *. simpl in *.
  apply andb_true_iff in Hd. destruct Hd as [Ha Hq].
  apply negb_true_iff in Ha. apply orb_false_iff in Ha. destruct Ha as [_ Ha].
  rewrite Ha. simpl.
  apply forallb_forall. intros x Hx.
  rewrite forallb_forall in Hq. specialize (Hq x Hx).
  apply negb_true_iff in Hq. apply orb_false_iff in Hq.
  apply negb_true_iff. tauto.
Qed.

Lemma occurs_tail q c s : occurs q (c :: s) = false -> occurs q s = false.
Proof. simpl. intros H. apply orb_false_iff in H. tauto. Qed.

Lemma replaceAll_aux_copy p r c s :
  prefixb p (c :: s) = false ->
  replaceAll_aux p r 0 (c :: s) = c :: replaceAll_aux p r 0 s.
Proof. intros E. cbn [replaceAll_aux]. rewrite E. reflexivity. Qed.

(** Replacing [p] does not create an occurrence of a sequence that shares
    no code unit with the replacement text. *)
Lemma occurs_replaceAll_other p a q r0 r :
  disjointb (a :: q) (r0 :: r) = true ->
  forall s k,
    occurs (a :: q) s = false ->
    occurs (a :: q) (replaceAll_aux p (r0 :: r) k s) = false.
Proof.
  intros Hd. induction s as [|c s IH]; intros k H; [destruct k; exact H|].
  pose proof (occurs_tail _ _ _ H) as Hs.
  destruct k as [|k]; cbn [replaceAll_aux]; [|apply IH; assumption].
  destruct (prefixb p (c :: s)) eqn:Ep.
  - rewrite occurs_app_disjoint by assumption. apply IH. assumption.
  - cbn [occurs]. rewrite (IH 0%nat Hs), orb_false_r.
    destruct (prefixb (a :: q) (c :: replaceAll_aux p (r0 :: r) 0 s)) eqn:E;
      [|reflexivity].
    rewrite <- (replaceAll_aux_copy _ _ _ _ Ep) in E.
    apply prefixb_replaceAll_inv in E; [|assumption].
    cbn [occurs] in H. rewrite E in H. discriminate.
Qed.

(** After replacing [p] by a text that shares no code unit with it, [p]
    occurs no more. *)
Lemma occurs_replaceAll_self a p r0 r :
  disjointb (a :: p) (r0 :: r) = true ->
  forall s k, occurs (a :: p) (replaceAll_aux (a :: p) (r0 :: r) k s) = false.
Proof.
  intros Hd. induction s as [|c s IH]; intros k; [destruct k; reflexivity|].
  destruct k as [|k]; cbn [replaceAll_aux]; [|apply IH].
  destruct (prefixb (a :: p) (c :: s)) eqn:Ep.
  - rewrite occurs_app_disjoint by assumption. apply IH.
  - cbn [occurs]. rewrite (IH 0%nat), orb_false_r.
    destruct (prefixb (a :: p) (c :: replaceAll_aux (a :: p) (r0 :: r) 0 s))
      eqn:E; [|reflexivity].
    rewrite <- (replaceAll_aux_copy _ _ _ _ Ep) in E.
    apply prefixb_replaceAll_inv in E; [|assumption]. congruence.
Qed.

(** Where [p] does not occur, replacing it changes nothing. *)
Lemma replaceAll_absent p r : forall s,
  occurs p s = false -> replaceAll p r s = s.
Proof.
  unfold replaceAll. induction s as [|c s IH]; intros H; [reflexivity|].
  cbn [occurs] in H. apply orb_false_iff in H. destruct H as [Hp Hs].
  cbn [replaceAll_aux]. rewrite Hp. f_equal. apply IH. assumption.
Qed.

(** A sequence with a code unit [b] that [s] does not contain does not
    occur in [s]. *)
Lemma prefixb_In q : forall s b,
  prefixb q s = true -> In b q -> In b s.
Proof.
  induction q as [|a q IH]; intros [|c s] b H Hb; simpl in *;
    try contradiction; try discriminate.
  apply andb_true_iff in H. destruct H as [Hac Hq]. apply N.eqb_eq in Hac.
  destruct Hb as [Hb|Hb]; [left; congruence | right; eapply IH; eassumption].
Qed.

Lemma occurs_missing_unit q b : forall s,
  In b q -> ~ In b s -> occurs q s = false.
Proof.
  intros s Hb. induction s as [|c s IH]; intros Hs.
  - simpl. destruct q; [contradiction | reflexivity].
  - cbn [occurs]. rewrite IH by (intros X; apply Hs; right; exact X).
    rewrite orb_false_r.
    destruct (prefixb q (c :: s)) eqn:E; [|reflexivity].
    exfalso. apply Hs. eapply prefixb_In; eassumption.
Qed.

(** *** Character classes *)

Lemma prefixb_replaceClass_inv cls : forall q s,
  forallb (fun a => negb (cls a) && negb (a =? space)%N) q = true ->
  prefixb q (replaceClass cls s) = true -> prefixb q s = true.
Proof.
  induction q as [|a q IH]; intros [|c s] Hq H; simpl in *;
    try reflexivity; try discriminate.
  apply andb_true_iff in Hq. destruct Hq as [Ha Hq].
  apply andb_true_iff in Ha. destruct Ha as [Hcls Hsp].
  apply andb_true_iff in H. destruct H as [Hac H].
  rewrite (IH s Hq H), andb_true_r.
  destruct (cls c) eqn:Ec.
  - rewrite Hac in Hsp. discriminate.
  - assumption.
Qed.

Lemma occurs_replaceClass cls a q : forall s,
  forallb (fun a => negb (cls a) && negb (a =? space)%N) (a :: q) = true ->
  occurs (a :: q) s = false ->
  occurs (a :: q) (replaceClass cls s) = false.
Proof.
  intros s Hq. induction s as [|c s IH]; intros H; [reflexivity|].
  cbn [occurs] in H. apply orb_false_iff in H. destruct H as [Hp Hs].
  change (replaceClass cls (c :: s))
    with ((if cls c then space else c) :: replaceClass cls s).
  cbn [occurs]. rewrite (IH Hs), orb_false_r.
  destruct (prefixb (a :: q) ((if cls c then space else c) :: replaceClass cls s))
    eqn:E; [|reflexivity].
  change ((if cls c then space else c) :: replaceClass cls s)
    with (replaceClass cls (c :: s)) in E.
  apply prefixb_replaceClass_inv in E; [congruence | assumption].
Qed.

Lemma replaceClass_absent cls : forall s,
  Forall (fun c => cls c = false) s -> replaceClass cls s = s.
Proof.
  induction 1 as [|c s Hc _ IH]; [reflexivity|].
  unfold replaceClass in *. simpl. rewrite Hc, IH. reflexivity.
Qed.

(** *** White space *)

Lemma is_space_space : is_space space = true.
Proof. reflexivity. Qed.

Lemma prefixb_collapse_inv : forall q s,
  forallb (fun a => negb (is_space a)) q = true ->
  prefixb q (collapse_aux false s) = true -> prefixb q s = true.
Proof.
  induction q as [|a q IH]; intros [|c s] Hq H; simpl in *;
    try reflexivity; try discriminate.
  apply andb_true_iff in Hq. destruct Hq as [Ha Hq].
  apply negb_true_iff in Ha.
  destruct (is_space c) eqn:Ec; simpl in H;
    apply andb_true_iff in H; destruct H as [Hac H].
  - apply N.eqb_eq in Hac. subst a. rewrite is_space_space in Ha. discriminate.
  - rewrite Hac, (IH s Hq H). reflexivity.
Qed.

Lemma occurs_collapse a q :
  forallb (fun a => negb (is_space a)) (a :: q) = true ->
  forall s b,
    occurs (a :: q) s = false ->
    occurs (a :: q) (collapse_aux b s) = false.
Proof.
  intros Hq. induction s as [|c s IH]; intros b H; [reflexivity|].
  cbn [occurs] in H. apply orb_false_iff in H. destruct H as [Hp Hs].
  assert (Hsp : (a =? space)%N = false).
  { simpl in Hq. apply andb_true_iff in Hq. destruct Hq as [Ha _].
    apply negb_true_iff in Ha. destruct (N.eqb_spec a space); [|reflexivity].
    subst a. rewrite is_space_space in Ha. discriminate. }
  cbn [collapse_aux]. destruct (is_space c) eqn:Ec.
  - destruct b; [apply IH; assumption|].
    cbn [occurs]. rewrite (IH true Hs), orb_false_r.
    simpl. rewrite Hsp. reflexivity.
  - cbn [occurs]. rewrite (IH false Hs), orb_false_r.
    destruct (prefixb (a :: q) (c :: collapse_aux false s)) eqn:E;
      [|reflexivity].
    assert (E' : prefixb (a :: q) (collapse_aux false (c :: s)) = true)
      by (cbn [collapse_aux]; rewrite Ec; exact E).
    apply prefixb_collapse_inv in E'; [congruence | assumption].
Qed.

Lemma occurs_trimStart q : forall s,
  occurs q s = false -> occurs q (trimStart s) = false.
Proof.
  induction s as [|c s IH]; intros H; [exact H|].
  cbn [trimStart]. destruct (is_space c); [|exact H].
  apply IH. eapply occurs_tail; eassumption.
Qed.

Lemma prefixb_trimEnd_inv : forall q s,
  prefixb q (trimEnd s) = true -> prefixb q s = true.
Proof.
  induction q as [|a q IH]; intros [|c s] H; try reflexivity;
    try (simpl in H; discriminate).
  cbn [trimEnd] in H. destruct (trimEnd s) as [|d t] eqn:Et.
  - destruct (is_space c); [simpl in H; discriminate|].
    simpl in H. apply andb_true_iff in H. destruct H as [Hac Hq].
    apply prefixb_nil_r in Hq. subst q. simpl. rewrite Hac. reflexivity.
  - simpl in H. apply andb_true_iff in H. destruct H as [Hac Hq].
    simpl. rewrite Hac. simpl. apply IH. rewrite Et. exact Hq.
Qed.

Lemma occurs_trimEnd a q : forall s,
  occurs (a :: q) s = false -> occurs (a :: q) (trimEnd s) = false.
Proof.
  induction s as [|c s IH]; intros H; [reflexivity|].
  cbn [occurs] in H. apply orb_false_iff in H. destruct H as [Hp Hs].
  specialize (IH Hs).
  destruct (occurs (a :: q) (trimEnd (c :: s))) eqn:E; [|reflexivity].
  exfalso. cbn [trimEnd] in E.
  assert (Hpre : prefixb (a :: q) (trimEnd (c :: s)) = false).
  { destruct (prefixb (a :: q) (trimEnd (c :: s))) eqn:E'; [|reflexivity].
    apply prefixb_trimEnd_inv in E'. congruence. }
  cbn [trimEnd] in Hpre.
  destruct (trimEnd s) as [|d t].
  - destruct (is_space c); [simpl in E; discriminate|].
    cbn [occurs] in E. rewrite Hpre in E. simpl in E. discriminate.
  - cbn [occurs] in E. rewrite Hpre in E. cbn [occurs] in IH.
    simpl in E. simpl in IH. congruence.
Qed.

Lemma normal_spaces_weaken s :
  normal_spaces true s = true -> normal_spaces false s = true.
Proof.
  destruct s as [|c s]; [reflexivity|]. simpl.
  destruct (is_space c); [|trivial].
  rewrite andb_false_r. discriminate.
Qed.

Lemma collapse_normal : forall s b, normal_spaces b (collapse_aux b s) = true.
Proof.
  induction s as [|c s IH]; intros b; [reflexivity|].
  cbn [collapse_aux]. destruct (is_space c) eqn:Ec.
  - destruct b; [apply IH|].
    cbn [normal_spaces]. rewrite is_space_space, N.eqb_refl. simpl. apply IH.
  - cbn [normal_spaces]. rewrite Ec. apply IH.
Qed.

Lemma collapse_normal_id : forall s b,
  normal_spaces b s = true -> collapse_aux b s = s.
Proof.
  induction s as [|c s IH]; intros b H; [reflexivity|].
  cbn [normal_spaces] in H. cbn [collapse_aux].
  destruct (is_space c).
  - apply andb_true_iff in H. destruct H as [H Hs].
    apply andb_true_iff in H. destruct H as [Hc Hb].
    apply negb_true_iff in Hb. subst b. apply N.eqb_eq in Hc. subst c.
    f_equal. apply IH. assumption.
  - f_equal. apply IH. assumption.
Qed.

Lemma normal_spaces_trimStart : forall s b,
  normal_spaces b s = true -> normal_spaces false (trimStart s) = true.
Proof.
  induction s as [|c s IH]; intros b H; [reflexivity|].
  cbn [trimStart]. cbn [normal_spaces] in H.
  destruct (is_space c) eqn:Ec.
  - apply andb_true_iff in H. destruct H as [_ Hs]. eapply IH; eassumption.
  - cbn [normal_spaces]. rewrite Ec. assumption.
Qed.

Lemma normal_spaces_trimEnd : forall s b,
  normal_spaces b s = true -> normal_spaces b (trimEnd s) = true.
Proof.
  induction s as [|c s IH]; intros b H; [reflexivity|].
  cbn [trimEnd]. cbn [normal_spaces] in H.
  destruct (is_space c) eqn:Ec.
  - apply andb_true_iff in H. destruct H as [H Hs].
    specialize (IH true Hs).
    destruct (trimEnd s) as [|d t]; [reflexivity|].
    cbn [normal_spaces] in *. rewrite Ec, H. exact IH.
  - specialize (IH false H).
    destruct (trimEnd s) as [|d t].
    + simpl. rewrite Ec. reflexivity.
    + cbn [normal_spaces] in *. rewrite Ec. exact IH.
Qed.

Lemma trimStart_starts_clean s : starts_clean (trimStart s) = true.
Proof.
  induction s as [|c s IH]; [reflexivity|].
  cbn [trimStart]. destruct (is_space c) eqn:Ec; [exact IH|].
  simpl. rewrite Ec. reflexivity.
Qed.

Lemma trimEnd_starts_clean s :
  starts_clean s = true -> starts_clean (trimEnd s) = true.
Proof.
  destruct s as [|c s]; [trivial|]. simpl. intros Hc.
  apply negb_true_iff in Hc.
  destruct (trimEnd s); [rewrite Hc|]; simpl; rewrite Hc; reflexivity.
Qed.

Lemma trimStart_clean_id s : starts_clean s = true -> trimStart s = s.
Proof.
  destruct s as [|c s]; [trivial|]. simpl. intros Hc.
  apply negb_true_iff in Hc. rewrite Hc. reflexivity.
Qed.

Lemma trimEnd_idempotent : forall s, trimEnd (trimEnd s) = trimEnd s.
Proof.
  induction s as [|c s IH]; [reflexivity|].
  cbn [trimEnd]. destruct (trimEnd s) as [|d t] eqn:Et.
  - destruct (is_space c) eqn:Ec; [reflexivity|]. simpl. rewrite Ec. reflexivity.
  - cbn [trimEnd]. cbn [trimEnd] in IH. rewrite IH. reflexivity.
Qed.

Lemma trim_idempotent s : trim (trim s) = trim s.
Proof.
  unfold trim.
  rewrite (trimStart_clean_id (trimEnd (trimStart s))).
  - apply trimEnd_idempotent.
  - apply trimEnd_starts_clean, trimStart_starts_clean.
Qed.

(** *** What the cleaning steps keep *)

Section Kept.

Variable P : code_unit -> Prop.
Hypothesis P_space : P space.

Lemma Forall_collapse : forall s b, Forall P s -> Forall P (collapse_aux b s).
Proof.
  induction s as [|c s IH]; intros b H; [constructor|].
  inversion H; subst. cbn [collapse_aux].
  destruct (is_space c); [destruct b|]; auto.
Qed.

Lemma Forall_trimStart : forall s, Forall P s -> Forall P (trimStart s).
Proof.
  induction s as [|c s IH]; intros H; [constructor|].
  inversion H; subst. cbn [trimStart]. destruct (is_space c); auto.
Qed.

Lemma Forall_trimEnd : forall s, Forall P s -> Forall P (trimEnd s).
Proof.
  induction s as [|c s IH]; intros H; [constructor|].
  inversion H; subst. cbn [trimEnd].
  specialize (IH ltac:(assumption)).
  destruct (trimEnd s); [destruct (is_space c)|]; auto.
Qed.

End Kept.

(** *** The stripped blocks *)

Lemma stripBlocks_clean s : Forall (fun c => stripped c = false) (stripBlocks s).
Proof.
  unfold stripBlocks, replaceClass. rewrite !map_map.
  apply Forall_forall. intros c' Hc'. apply in_map_iff in Hc'.
  destruct Hc' as [c [Hc _]]. subst c'. unfold stripped.
  destruct (is_control c) eqn:E1; [reflexivity|].
  destruct (is_general_punctuation c) eqn:E2; [reflexivity|].
  destruct (is_super_subscript c) eqn:E3; [reflexivity|].
  destruct (is_currency c) eqn:E4; [reflexivity|].
  destruct (is_letterlike c) eqn:E5; [reflexivity|].
  rewrite E1, E2, E3, E4, E5. reflexivity.
Qed.

Lemma stripped_false c :
  stripped c = false ->
  is_control c = false /\ is_general_punctuation c = false
  /\ is_super_subscript c = false /\ is_currency c = false
  /\ is_letterlike c = false.
Proof.
  unfold stripped. intros H.
  destruct (is_control c), (is_general_punctuation c),
    (is_super_subscript c), (is_currency c), (is_letterlike c);
    try discriminate H; repeat split.
Qed.

Lemma stripBlocks_absent s :
  Forall (fun c => stripped c = false) s -> stripBlocks s = s.
Proof.
  intros H. unfold stripBlocks.
  assert (Hk : forall cls, (forall c, stripped c = false -> cls c = false) ->
                 replaceClass cls s = s).
  { intros cls Hcls. apply replaceClass_absent.
    eapply Forall_impl; [|exact H]. exact Hcls. }
  rewrite (Hk is_control), (Hk is_general_punctuation),
    (Hk is_super_subscript), (Hk is_currency), (Hk is_letterlike);
    try reflexivity; intros c Hc; apply stripped_false in Hc; tauto.
Qed.

Lemma cleaned_of_clean text :
  Forall (fun c => stripped c = false) (cleaned_of text).
Proof.
  unfold cleaned_of, trim, collapseSpaces.
  apply Forall_trimEnd, Forall_trimStart, Forall_collapse;
    [reflexivity | apply stripBlocks_clean].
Qed.

(** *** Counting the code units that survive *)

Lemma count_surviving_app s t :
  count_surviving (s ++ t) = (count_surviving s + count_surviving t)%nat.
Proof. unfold count_surviving. rewrite filter_app, length_app. reflexivity. Qed.

Lemma count_surviving_cons c s :
  count_surviving (c :: s)
  = ((if survives c then 1 else 0) + count_surviving s)%nat.
Proof. unfold count_surviving. simpl. destruct (survives c); reflexivity. Qed.

Lemma count_surviving_le_length s : (count_surviving s <= length s)%nat.
Proof. apply filter_length_le. Qed.

Lemma survives_not_space c : is_space c = true -> survives c = false.
Proof. unfold survives. intros ->. reflexivity. Qed.

(** A replacement that has at least as many surviving code units as its
    pattern loses none of them. *)
Lemma count_replaceAll a p r :
  (count_surviving (a :: p) <= count_surviving r)%nat ->
  forall s k,
    (count_surviving (skipn k s)
     <= count_surviving (replaceAll_aux (a :: p) r k s))%nat.
Proof.
  intros Hr. induction s as [|c s IH]; intros k.
  - destruct k; simpl; lia.
  - destruct k as [|k]; cbn [replaceAll_aux skipn]; [|apply IH].
    destruct (prefixb (a :: p) (c :: s)) eqn:E.
    + rewrite count_surviving_app.
      pose proof (prefixb_split _ _ E) as Hsplit.
      rewrite Hsplit at 1. rewrite count_surviving_app.
      cbn [length skipn pred]. specialize (IH (length p)). lia.
    + rewrite !count_surviving_cons. specialize (IH 0%nat).
      cbn [skipn] in IH. lia.
Qed.

Lemma count_replaceClass cls :
  (forall c, survives c = true -> cls c = false) ->
  forall s, (count_surviving s <= count_surviving (replaceClass cls s))%nat.
Proof.
  intros Hcls. induction s as [|c s IH]; [apply Nat.le_refl|].
  change (replaceClass cls (c :: s))
    with ((if cls c then space else c) :: replaceClass cls s).
  rewrite !count_surviving_cons.
  destruct (survives c) eqn:Ec.
  - rewrite (Hcls c Ec), Ec. lia.
  - lia.
Qed.

Lemma count_collapse : forall s b,
  count_surviving (collapse_aux b s) = count_surviving s.
Proof.
  induction s as [|c s IH]; intros b; [reflexivity|].
  cbn [collapse_aux]. destruct (is_space c) eqn:Ec.
  - rewrite (count_surviving_cons c), (survives_not_space _ Ec).
    destruct b; [apply IH|].
    rewrite count_surviving_cons. simpl. apply IH.
  - rewrite !count_surviving_cons, IH. reflexivity.
Qed.

Lemma count_trimStart : forall s,
  count_surviving (trimStart s) = count_surviving s.
Proof.
  induction s as [|c s IH]; [reflexivity|].
  cbn [trimStart]. destruct (is_space c) eqn:Ec; [|reflexivity].
  rewrite (count_surviving_cons c), (survives_not_space _ Ec). exact IH.
Qed.

Lemma count_trimEnd : forall s,
  count_surviving (trimEnd s) = count_surviving s.
Proof.
  induction s as [|c s IH]; [reflexivity|].
  cbn [trimEnd]. rewrite (count_surviving_cons c s), <- IH.
  destruct (trimEnd s) as [|d t].
  - destruct (is_space c) eqn:Ec.
    + rewrite (survives_not_space _ Ec). reflexivity.
    + rewrite count_surviving_cons. reflexivity.
  - rewrite (count_surviving_cons c). reflexivity.
Qed.

Lemma count_cleaned_of text :
  (count_surviving text <= count_surviving (cleaned_of text))%nat.
Proof.
  unfold cleaned_of, trim, collapseSpaces.
  rewrite count_trimEnd, count_trimStart, count_collapse.
  assert (Hall : forall a p r s,
            (count_surviving (a :: p) <= count_surviving r)%nat ->
            (count_surviving s <= count_surviving (replaceAll (a :: p) r s))%nat).
  { intros a p r s Hr. apply (@count_replaceAll a p r Hr s 0%nat). }
  assert (Hcls : forall cls s,
            (forall c, stripped c = false -> cls c = false) ->
            (count_surviving s <= count_surviving (replaceClass cls s))%nat).
  { intros cls s H. apply count_replaceClass. intros c Hc. apply H.
    unfold survives in Hc. apply andb_true_iff in Hc.
    destruct Hc as [_ Hc]. apply negb_true_iff in Hc. exact Hc. }
  unfold stripBlocks, replaceSymbols.
  repeat (etransitivity;
          [|apply Hcls; intros c Hc; apply stripped_false in Hc; tauto]).
  repeat (etransitivity; [|apply Hall; vm_compute; lia]).
  apply Nat.le_refl.
Qed.

(** ** The text normalizer *)

Lemma Forall_firstn_keep {A} (P : A -> Prop) : forall n l,
  Forall P l -> Forall P (firstn n l).
Proof.
  induction n as [|n IH]; intros l H; [constructor|].
  destruct H; simpl; constructor; auto.
Qed.

Lemma cleanText_clean text :
  Forall (fun c => stripped c = false) (cleanText text).
Proof.
  unfold cleanText.
  destruct (negb (truthy text)); [constructor|]. cbv zeta.
  destruct (len (cleaned_of text) <? 10); [constructor|].
  destruct (len (cleaned_of text) >? 8000).
  - apply Forall_firstn_keep, cleaned_of_clean.
  - apply cleaned_of_clean.
Qed.

Lemma occurs_replaceAll_self' p r s :
  truthy p = true -> truthy r = true -> disjointb p r = true ->
  occurs p (replaceAll p r s) = false.
Proof.
  destruct p, r; try discriminate. intros _ _ Hd.
  apply occurs_replaceAll_self. assumption.
Qed.

Lemma occurs_replaceAll_other' q p r s :
  truthy q = true -> truthy r = true -> disjointb q r = true ->
  occurs q s = false -> occurs q (replaceAll p r s) = false.
Proof.
  destruct q, r; try discriminate. intros _ _ Hd H.
  apply occurs_replaceAll_other; assumption.
Qed.

Lemma occurs_stripBlocks q s :
  truthy q = true ->
  forallb (fun a => negb (stripped a) && negb (a =? space)%N) q = true ->
  occurs q s = false -> occurs q (stripBlocks s) = false.
Proof.
  destruct q as [|a q]; [discriminate|]. intros _ Hq H.
  assert (Hcls : forall cls,
            (forall c, stripped c = false -> cls c = false) ->
            forallb (fun a => negb (cls a) && negb (a =? space)%N) (a :: q)
            = true).
  { intros cls Hc. apply forallb_forall. intros x Hx.
    rewrite forallb_forall in Hq. specialize (Hq x Hx).
    apply andb_true_iff in Hq. destruct Hq as [Hs Hsp].
    apply negb_true_iff in Hs. rewrite (Hc x Hs). exact Hsp. }
  unfold stripBlocks.
  repeat (apply occurs_replaceClass;
          [apply Hcls; intros c Hc; apply stripped_false in Hc; tauto|]).
  exact H.
Qed.

Lemma occurs_trim_collapse q s :
  truthy q = true ->
  forallb (fun a => negb (is_space a)) q = true ->
  occurs q s = false -> occurs q (trim (collapseSpaces s)) = false.
Proof.
  destruct q as [|a q]; [discriminate|]. intros _ Hq H.
  unfold trim, collapseSpaces.
  apply occurs_trimEnd, occurs_trimStart, occurs_collapse; assumption.
Qed.

(** The two symbol sequences made only of code units that survive do not
    occur in a cleaned text. *)
Lemma cleaned_of_no_degrees text : occurs pat_degrees (cleaned_of text) = false.
Proof.
  unfold cleaned_of, replaceSymbols.
  apply occurs_trim_collapse; [reflexivity..|].
  apply occurs_stripBlocks; [reflexivity..|].
  do 4 (apply occurs_replaceAll_other'; [reflexivity..|]).
  apply occurs_replaceAll_self'; reflexivity.
Qed.

Lemma cleaned_of_no_sqrt text : occurs pat_sqrt (cleaned_of text) = false.
Proof.
  unfold cleaned_of, replaceSymbols.
  apply occurs_trim_collapse; [reflexivity..|].
  apply occurs_stripBlocks; [reflexivity..|].
  apply occurs_replaceAll_self'; reflexivity.
Qed.

Lemma cleaned_of_no_stripped_unit text q b :
  In b q -> stripped b = true -> occurs q (cleaned_of text) = false.
Proof.
  intros Hb Hs. apply occurs_missing_unit with (b := b); [assumption|].
  intros Hin. pose proof (cleaned_of_clean text) as Hc.
  rewrite Forall_forall in Hc. specialize (Hc b Hin). congruence.
Qed.

(** A cleaned text in which the angle sequence does not occur is left as
    it is by a second cleaning. *)
Lemma cleaned_of_fixed text :
  occurs pat_angle (cleaned_of text) = false ->
  cleaned_of (cleaned_of text) = cleaned_of text.
Proof.
  intros Hangle. set (y := cleaned_of text) in *.
  assert (Hsym : replaceSymbols y = y).
  { unfold replaceSymbols.
    rewrite (replaceAll_absent pat_degrees rep_degrees y)
      by apply cleaned_of_no_degrees.
    rewrite (replaceAll_absent pat_angle rep_angle y) by exact Hangle.
    rewrite (replaceAll_absent pat_triangle rep_triangle y)
      by (apply cleaned_of_no_stripped_unit with (b := 0x2020%N);
          [simpl; tauto | reflexivity]).
    rewrite (replaceAll_absent pat_pi rep_pi y)
      by (apply cleaned_of_no_stripped_unit with (b := 0x20AC%N);
          [simpl; tauto | reflexivity]).
    apply replaceAll_absent, cleaned_of_no_sqrt. }
  assert (Hstrip : stripBlocks y = y)
    by apply stripBlocks_absent, cleaned_of_clean.
  assert (Hcol : collapseSpaces y = y).
  { apply collapse_normal_id. unfold y, cleaned_of, trim, collapseSpaces.
    apply normal_spaces_trimEnd.
    apply normal_spaces_trimStart with (b := false).
    apply collapse_normal. }
  unfold cleaned_of at 1. rewrite Hsym, Hstrip, Hcol.
  unfold y, cleaned_of. apply trim_idempotent.
Qed.

(** C4 fails on the code: the angle sign as it is really mis-decoded
    (U+00E2 U+02C6 and a no-break space) is not translated by the first
    cleaning, whose pattern has a plain space there; the white-space step
    then turns the no-break space into a plain one, and the second cleaning
    (the upload handler cleans every chunk twice) translates it.  So the
    result is not truncated and cleaning it again changes it. *)
Lemma cleanText_not_idempotent :
  len (cleaned_of angle_phrase) <= 8000 /\
  cleanText angle_phrase = [0xE2; 0x2C6]%N ++ lit " hello world" /\
  cleanText (cleanText angle_phrase) = lit "angle hello world" /\
  cleanText (cleanText angle_phrase) <> cleanText angle_phrase.
Proof.
  split; [vm_compute; discriminate|].
  split; [vm_compute; reflexivity|].
  split; [vm_compute; reflexivity|].
  vm_compute. discriminate.
Qed.

(** The angle pattern is the only obstacle to idempotence: for every input
    [x] whose normalized result is not truncated by the 8000 cap and does not
    contain the sequence U+00E2 U+02C6 U+0020, a second normalization
    returns the result unchanged. *)
Theorem cleanText_idempotent_without_angle (x : jsstring) :
  len (cleaned_of x) <= 8000 ->
  occurs pat_angle (cleanText x) = false ->
  cleanText (cleanText x) = cleanText x.
Proof.
  intros Hcap Hangle. unfold cleanText at 2 3. unfold cleanText at 1 in Hangle.
  destruct (negb (truthy x)); [reflexivity|]. cbv zeta in *.
  destruct (len (cleaned_of x) <? 10) eqn:Eshort; [reflexivity|].
  destruct (len (cleaned_of x) >? 8000) eqn:Ecap.
  { apply Z.gtb_lt in Ecap. lia. }
  unfold cleanText.
  destruct (cleaned_of x) as [|c y] eqn:Ey; [discriminate Eshort|].
  cbn [truthy negb]. rewrite <- Ey in *.
  rewrite (cleaned_of_fixed x Hangle), Eshort, Ecap. reflexivity.
Qed.

Lemma cleanText_idempotent_without_angle_witness :
  cleanText (cleanText (lit "  hello   wide world "))
  = cleanText (lit "  hello   wide world ").
Proof.
  apply cleanText_idempotent_without_angle.
  - vm_compute. discriminate.
  - vm_compute. reflexivity.
Defined.

(** The sibling patterns do what the angle pattern misses: the mis-decoded
    triangle sign (U+00E2 U+02C6 U+2020) is translated by the first
    cleaning, and a second cleaning changes nothing. *)
Lemma triangle_sign_translated :
  cleanText triangle_phrase = lit "triangle hello world"
  /\ cleanText (cleanText triangle_phrase) = cleanText triangle_phrase.
Proof. split; vm_compute; reflexivity. Qed.

(** C5, as stated, fails: ten euro signs are ten printable characters,
    and they normalize to the empty string. *)
Lemma ten_euros_cleaned_empty :
  length ten_euros = 10%nat /\
  forallb printable ten_euros = true /\
  cleanText ten_euros = [].
Proof. repeat split. Qed.

(** C5, amended: for every text [t] with at least 10 code units that are
    neither white space, nor control characters, nor in the blocks
    U+2000-U+20CF and U+2100-U+214F that the normalizer blanks,
    [cleanText t] is non-empty; and for every text [t], with or without
    such code units, [cleanText t] contains no control character. *)
Theorem cleanText_nonempty_no_control (t : jsstring) :
  ((10 <= count_surviving t)%nat -> cleanText t <> [])
  /\ Forall (fun c => is_control c = false) (cleanText t).
Proof.
  split.
  - intros Hcount.
    pose proof (count_cleaned_of t) as Hkeep.
    pose proof (count_surviving_le_length (cleaned_of t)) as Hlen.
    unfold cleanText.
    destruct t as [|c t']; [unfold count_surviving in Hcount; simpl in Hcount; lia|].
    cbn [truthy negb]. cbv zeta.
    set (cleaned := cleaned_of (c :: t')) in *.
    destruct (len cleaned <? 10) eqn:Eshort.
    { apply Z.ltb_lt in Eshort. unfold len in Eshort. lia. }
    destruct cleaned as [|d rest]; [simpl in Hlen; lia|].
    destruct (len (d :: rest) >? 8000); [|discriminate].
    unfold substring0.
    destruct (Z.to_nat 8000) eqn:E; [vm_compute in E; discriminate E|].
    discriminate.
  - eapply Forall_impl; [|apply cleanText_clean].
    intros c Hc. apply stripped_false in Hc. tauto.
Qed.

Lemma cleanText_nonempty_no_control_witness :
  cleanText (lit "hello world") <> [] /\
  Forall (fun c => is_control c = false) (cleanText (lit "hello world")).
Proof.
  split.
  - apply (proj1 (cleanText_nonempty_no_control (lit "hello world"))).
    vm_compute. lia.
  - apply (proj2 (cleanText_nonempty_no_control (lit "hello world"))).
Defined.

(** *** The chunks of [chunkText] pass the filter of the upload handler *)

Lemma cleanText_starts_clean text : starts_clean (cleanText text) = true.
Proof.
  assert (Hc : starts_clean (cleaned_of text) = true).
  { unfold cleaned_of, trim.
    apply trimEnd_starts_clean, trimStart_starts_clean. }
  unfold cleanText.
  destruct (negb (truthy text)); [reflexivity|]. cbv zeta.
  destruct (len (cleaned_of text) <? 10); [reflexivity|].
  destruct (len (cleaned_of text) >? 8000); [|exact Hc].
  unfold substring0.
  destruct (Z.to_nat 8000); [reflexivity|].
  destruct (cleaned_of text); [reflexivity | exact Hc].
Qed.

Lemma trim_nonempty s :
  truthy s = true -> starts_clean s = true -> truthy (trim s) = true.
Proof.
  intros Hs Hc. unfold trim. rewrite (trimStart_clean_id s Hc).
  destruct s as [|c s]; [discriminate|]. simpl in Hc.
  apply negb_true_iff in Hc. cbn [trimEnd].
  destruct (trimEnd s); [rewrite Hc|]; reflexivity.
Qed.

Lemma chunkText_loop_valid text maxLen (valid : jsstring -> Prop) :
  (forall chunk, truthy (cleanText chunk) = true -> valid (cleanText chunk)) ->
  forall fuel i chunks r,
    Forall valid chunks ->
    chunkText_loop fuel text maxLen (i, chunks) = Some r ->
    Forall valid r.
Proof.
  intros Hvalid.
  assert (Hstep : forall i chunks st',
            Forall valid chunks ->
            chunk_step text maxLen (i, chunks) = Some st' ->
            Forall valid (snd st')).
  { intros i chunks st' Hall Hst. unfold chunk_step in Hst.
    destruct (i <? len text); [|discriminate].
    injection Hst as <-. cbn [snd].
    destruct (truthy (cleanText (slice i (i + maxLen) text))) eqn:E;
      [|exact Hall].
    apply Forall_app. split; [exact Hall|]. constructor; [|constructor].
    apply Hvalid. exact E. }
  induction fuel as [|fuel IH]; intros i chunks r Hall H; cbn [chunkText_loop] in H;
    destruct (chunk_step text maxLen (i, chunks)) as [[i' chunks']|] eqn:Est;
    try discriminate; try (injection H as <-; exact Hall).
  apply (IH i' chunks' r); [|exact H].
  apply (Hstep i chunks (i', chunks') Hall Est).
Qed.

(** X7: every chunk [chunkText] returns is non-empty and stays so when trimmed:
    [validChunks] of the upload handler is [chunks]. *)
Lemma chunkText_validChunks text maxLen chunks :
  chunkText text maxLen = Some chunks ->
  filter (fun chunk => truthy chunk && negb (str_eqb (trim chunk) [])) chunks
  = chunks.
Proof.
  intros H.
  assert (Hall : Forall (fun chunk =>
            truthy chunk && negb (str_eqb (trim chunk) []) = true) chunks).
  { unfold chunkText in H.
    eapply chunkText_loop_valid; [| constructor | exact H].
    intros chunk Ht. rewrite Ht. cbn [andb].
    pose proof (trim_nonempty _ Ht (cleanText_starts_clean chunk)) as Htrim.
    destruct (trim (cleanText chunk)); [discriminate | reflexivity]. }
  clear H. induction Hall as [|c l Hc _ IH]; [reflexivity|].
  cbn [filter]. rewrite Hc, IH. reflexivity.
Qed.

(** ** The for loops *)

Lemma indices_from_more_fuel step n : (0 < step)%nat ->
  forall fuel i fuel',
    (n - i <= fuel)%nat -> (fuel <= fuel')%nat ->
    indices_from fuel' i step n = indices_from fuel i step n.
Proof.
  intros Hstep. induction fuel as [|fuel IH]; intros i fuel' Hn Hle.
  - destruct fuel'; [reflexivity|]. simpl.
    destruct (i <? n)%nat eqn:E; [apply Nat.ltb_lt in E; lia | reflexivity].
  - destruct fuel' as [|fuel']; [lia|]. simpl.
    destruct (i <? n)%nat eqn:E; [|reflexivity].
    f_equal. apply IH; lia.
Qed.

(** [for_indices] lists every value the loop variable takes: more fuel
    adds none. *)
Lemma for_indices_complete n step fuel : (0 < step)%nat -> (n <= fuel)%nat ->
  indices_from fuel 0 step n = for_indices n step.
Proof.
  intros Hstep Hfuel. unfold for_indices.
  apply indices_from_more_fuel; [assumption | lia | assumption].
Qed.

Lemma mapi_from_length {A B} (f : A -> nat -> B) : forall l i,
  length (mapi_from f i l) = length l.
Proof. induction l as [|x l IH]; intros i; simpl; [|rewrite IH]; reflexivity. Qed.

Lemma mapi_from_nth_error {A B} (f : A -> nat -> B) : forall l i k,
  nth_error (mapi_from f i l) k
  = option_map (fun x => f x (i + k)%nat) (nth_error l k).
Proof.
  induction l as [|x l IH]; intros i k.
  - destruct k; reflexivity.
  - destruct k as [|k]; simpl.
    + rewrite Nat.add_0_r. reflexivity.
    + rewrite IH. rewrite Nat.add_succ_r. reflexivity.
Qed.

Lemma slice_prefix {A} (s : list A) (n : Z) :
  0 <= n <= len s -> slice 0 n s = firstn (Z.to_nat n) s.
Proof.
  intros Hn. unfold slice, rel_index.
  replace (0 <? 0) with false by reflexivity.
  destruct (n <? 0) eqn:E; [apply Z.ltb_lt in E; lia|].
  rewrite (Z.min_l 0 (len s)) by lia. rewrite (Z.min_l n (len s)) by lia.
  rewrite Z.sub_0_r. reflexivity.
Qed.

(** ** The server *)

Section ServerProperties.

Variable Vec : Type.
Variable O : Oracle Vec.

(** *** Outcomes *)

Lemma never_hangs_ret {A} (a : A) : never_hangs (ret (Vec := Vec) a).
Proof. intros w. discriminate. Qed.

Lemma never_hangs_throw {A} e : never_hangs (throw (Vec := Vec) (A := A) e).
Proof. intros w. discriminate. Qed.

Lemma never_hangs_emit ev : never_hangs (emit (Vec := Vec) ev).
Proof. intros w. discriminate. Qed.

Lemma never_hangs_call {A} ev (reply : History Vec -> Reply A) :
  never_hangs (call ev reply).
Proof. intros w. unfold call. destruct (reply (history w)); discriminate. Qed.

Lemma never_hangs_unlink p : never_hangs (unlink (Vec := Vec) p).
Proof.
  intros w. unfold unlink. destruct (existsb (str_eqb p) (files w)); discriminate.
Qed.

Lemma never_hangs_bind {A B} (m : M Vec A) (k : A -> M Vec B) :
  never_hangs m -> (forall a, never_hangs (k a)) -> never_hangs (bind m k).
Proof.
  intros Hm Hk w. unfold bind. specialize (Hm w).
  destruct (m w) as [w' [a|e|]]; simpl in *;
    [apply Hk | discriminate | congruence].
Qed.

Lemma never_hangs_try_catch {A} (m : M Vec A) handler :
  never_hangs m -> (forall e, never_hangs (handler e)) ->
  never_hangs (try_catch m handler).
Proof.
  intros Hm Hh w. unfold try_catch. specialize (Hm w).
  destruct (m w) as [w' [a|e|]]; simpl in *;
    [discriminate | apply Hh | congruence].
Qed.

Lemma always_returns_never_hangs {A} (m : M Vec A) :
  always_returns m -> never_hangs m.
Proof. intros H w. destruct (H w) as [a Ha]. congruence. Qed.

Lemma always_returns_ret {A} (a : A) : always_returns (ret (Vec := Vec) a).
Proof. intros w. exists a. reflexivity. Qed.

Lemma always_returns_emit ev : always_returns (emit (Vec := Vec) ev).
Proof. intros w. exists tt. reflexivity. Qed.

Lemma always_returns_bind {A B} (m : M Vec A) (k : A -> M Vec B) :
  always_returns m -> (forall a, always_returns (k a)) ->
  always_returns (bind m k).
Proof.
  intros Hm Hk w. unfold bind. destruct (Hm w) as [a Ha].
  destruct (m w) as [w' out]. simpl in Ha. subst out. apply Hk.
Qed.

(** A [try] whose handler returns, returns. *)
Lemma always_returns_try_catch {A} (m : M Vec A) handler :
  never_hangs m -> (forall e, always_returns (handler e)) ->
  always_returns (try_catch m handler).
Proof.
  intros Hm Hh w. unfold try_catch. specialize (Hm w).
  destruct (m w) as [w' [a|e|]]; simpl in *;
    [exists a; reflexivity | apply Hh | congruence].
Qed.

Create HintDb outcomes.

#[local] Hint Resolve never_hangs_ret never_hangs_throw never_hangs_emit
  never_hangs_call never_hangs_unlink always_returns_ret
  always_returns_emit always_returns_never_hangs : outcomes.

Ltac outcomes :=
  repeat first
    [ progress auto with outcomes
    | apply always_returns_bind; [|intros ?]
    | apply always_returns_try_catch; [|intros ?]
    | apply never_hangs_bind; [|intros ?]
    | apply never_hangs_try_catch; [|intros ?] ].

(** *** The embedding client *)

Lemma embed_single_returns all text : always_returns (embed_single O all text).
Proof.
  unfold embed_single. outcomes. destruct a; outcomes.
Qed.
#[local] Hint Resolve embed_single_returns : outcomes.

Lemma embed_individually_returns batch :
  forall all, always_returns (embed_individually O batch all).
Proof.
  induction batch as [|text rest IH]; intros all; simpl; outcomes.
Qed.
#[local] Hint Resolve embed_individually_returns : outcomes.

Lemma embed_batch_returns batch all : always_returns (embed_batch O batch all).
Proof.
  unfold embed_batch. outcomes.
  destruct a as [|[[|e es]|]]; outcomes.
  destruct (all_values (e :: es)); outcomes.
Qed.
#[local] Hint Resolve embed_batch_returns : outcomes.

Lemma embed_loop_returns cleanedTexts starts :
  forall all, always_returns (embed_loop O starts cleanedTexts all).
Proof.
  induction starts as [|i rest IH]; intros all; simpl; outcomes.
  destruct (_ <? _); outcomes.
Qed.
#[local] Hint Resolve embed_loop_returns : outcomes.

Lemma filter_all_empty texts :
  Forall (fun t => cleanText t = []) texts ->
  filter (fun text => len text >? 0) (map cleanText texts) = [].
Proof.
  induction 1 as [|t texts Ht _ IH]; [reflexivity|].
  simpl. rewrite Ht. simpl. exact IH.
Qed.

Lemma world_eta (w : World Vec) :
  {| history := history w; files := files w |} = w.
Proof. destruct w. reflexivity. Qed.



Lemma embed_individually_retried batch : forall all w,
  exists h' vs,
    Retried O (history w) batch h' vs /\
    embed_individually O batch all w
    = ({| history := h'; files := files w |}, Returned (all ++ vs)).
Proof.
  induction batch as [|text rest IH]; intros all w.
  - exists (history w), []. split; [constructor|].
    simpl. unfold ret. rewrite app_nil_r, world_eta. reflexivity.
  - cbn [embed_individually]. unfold bind at 1.
    unfold embed_single, try_catch, bind, call.
    destruct (embedContent O (history w) text) as [[values|]|e] eqn:Hreply;
      cbn [ret throw emit fst snd history files].
    + destruct (IH (all ++ [values])
                  {| history := history w ++ [CallEmbed Vec text];
                     files := files w |}) as [h' [vs [Hr Heq]]].
      exists h', (values :: vs). split.
      * eapply Retried_embedded; [exact Hreply | exact Hr].
      * rewrite Heq. cbn [files]. rewrite <- app_assoc. reflexivity.
    + destruct (IH all
                  {| history := ((history w ++ [CallEmbed Vec text])
                                 ++ [ConsoleError]) ++ [ConsoleError];
                     files := files w |}) as [h' [vs [Hr Heq]]].
      cbn [history files] in Hr, Heq.
      exists h', vs. split.
      * eapply Retried_skipped; [left; exact Hreply|].
        rewrite !app_assoc. exact Hr.
      * rewrite Heq. reflexivity.
    + destruct (IH all
                  {| history := ((history w ++ [CallEmbed Vec text])
                                 ++ [ConsoleError]) ++ [ConsoleError];
                     files := files w |}) as [h' [vs [Hr Heq]]].
      cbn [history files] in Hr, Heq.
      exists h', vs. split.
      * eapply Retried_skipped; [right; exists e; exact Hreply|].
        rewrite !app_assoc. exact Hr.
      * rewrite Heq. reflexivity.
Qed.

(** C6: when every input text normalizes to the empty string (so also for
    no text at all), [embedTexts] throws the error "No valid text chunks
    after cleaning"; the only event it leaves is the error line of its
    [catch] block, so no remote call is made. *)
Theorem embedTexts_no_valid_input (texts : list jsstring) (w : World Vec) :
  Forall (fun t => cleanText t = []) texts ->
  embedTexts O texts w
  = ({| history := history w ++ [ConsoleError]; files := files w |},
     Thrown no_valid_text).
Proof.
  intros Hall. unfold embedTexts. cbv zeta.
  rewrite (filter_all_empty Hall). reflexivity.
Qed.


(** *** The vector store *)

Lemma delete_loop_never_hangs vectorIds starts :
  never_hangs (delete_loop O starts vectorIds).
Proof. induction starts as [|i rest IH]; simpl; outcomes. Qed.
#[local] Hint Resolve delete_loop_never_hangs : outcomes.

Lemma deleteSessionVectors_returns sessionId :
  always_returns (deleteSessionVectors O sessionId).
Proof.
  unfold deleteSessionVectors, deleteSessionVectors_try. outcomes.
  destruct a as [|[[|m ms]|]]; outcomes.
Qed.
#[local] Hint Resolve deleteSessionVectors_returns : outcomes.

(** C7: whatever the index answers to the query and to the delete
    batches, [deleteSessionVectors] returns normally, and an upload with a
    file and a session id goes on, from the world the deletion left, with
    reading the file and the rest of the handler. *)
Theorem deleteSessionVectors_swallows (w : World Vec) (sessionId : jsstring) :
  snd (deleteSessionVectors O sessionId w) = Returned tt
  /\
  forall req file,
    req_file req = Some file ->
    upload_sessionId req = Some sessionId ->
    truthy sessionId = true ->
    upload O req w
    = try_catch (upload_process O file sessionId) (upload_catch req)
        (fst (deleteSessionVectors O sessionId w)).
Proof.
  assert (Hret : snd (deleteSessionVectors O sessionId w) = Returned tt).
  { destruct (deleteSessionVectors_returns sessionId w) as [[] H]. exact H. }
  split; [exact Hret|].
  intros req file Hfile Hsid Htruthy.
  unfold upload, upload_try. rewrite Hfile, Hsid, Htruthy. cbn [negb].
  unfold try_catch, bind.
  destruct (deleteSessionVectors O sessionId w) as [w' out].
  simpl in Hret. subst out. reflexivity.
Qed.

(** *** Asking *)

(** C8: an ask request with a question that survives cleaning and a
    session id, whose question is embedded and whose query returns no
    match (an empty or absent [matches]), is answered with status 200, the
    fixed "no relevant information" answer and no source; the embed call and
    the query are the only events, so the chat model is not called. *)
Theorem ask_no_matches (w : World Vec) (req : AskRequest)
  (question sessionId : jsstring) (qEmb : Vec)
  (matches : option (list Match)) :
  ask_question req = Some question ->
  truthy question = true ->
  ask_sessionId req = Some sessionId ->
  truthy sessionId = true ->
  truthy (cleanText question) = true ->
  let topK := match ask_topK req with Some k => k | None => 4 end in
  let embedded := history w ++ [CallEmbed Vec (cleanText question)] in
  embedContent O (history w) (cleanText question) = Resolves (Some qEmb) ->
  query O embedded (Given qEmb) topK sessionId
  = Resolves (QueryObject matches) ->
  matches = None \/ matches = Some [] ->
  ask O req w
  = ({| history := embedded ++ [CallQuery (Given qEmb) topK sessionId];
        files := files w |},
     Returned (json 200 (AnswerBody no_relevant_information [] None))).
Proof.
  intros Hq Htq Hs Hts Hclean topK embedded Hembed Hquery Hnone.
  unfold ask, ask_try. rewrite Hq, Htq, Hs, Hts, Hclean. cbn [negb].
  unfold try_catch, bind at 1, call. rewrite Hembed.
  unfold bind, call. cbn [history files].
  fold topK. fold embedded. rewrite Hquery.
  destruct Hnone as [-> | ->]; reflexivity.
Qed.

(** *** Building the vector records *)

(** [buildVectors] makes exactly min(#chunks, #embeddings) records, and
    record [i] holds embedding [i], chunk [i], the id
    [sessionId_i], the source file name, the index [i], the session id and
    the time read for it. *)
Theorem buildVectors_aligned (sessionId source : jsstring)
  (validChunks : list jsstring) (embeddings : list Vec)
  (now : nat -> jsstring) :
  let vectors := buildVectors sessionId source validChunks embeddings now in
  length vectors = Nat.min (length validChunks) (length embeddings)
  /\
  forall i, (i < Nat.min (length validChunks) (length embeddings))%nat ->
    exists chunk emb,
      nth_error validChunks i = Some chunk /\
      nth_error embeddings i = Some emb /\
      nth_error vectors i
      = Some {| rec_id := sessionId ++ lit "_" ++ decimal i;
                rec_values := emb;
                rec_metadata :=
                  {| meta_text := Some chunk;
                     meta_source := source;
                     meta_chunk_index := i;
                     meta_session_id := sessionId;
                     meta_uploaded_at := now i |} |}.
Proof.
  cbv zeta. unfold buildVectors.
  set (n := Nat.min (length validChunks) (length embeddings)).
  assert (Hmin : Z.min (len embeddings) (len validChunks) = Z.of_nat n)
    by (unfold len, n; lia).
  rewrite Hmin.
  rewrite slice_prefix by (unfold len, n; lia). rewrite Nat2Z.id.
  split.
  - rewrite mapi_from_length, length_firstn. unfold n. lia.
  - intros i Hi.
    destruct (nth_error validChunks i) as [chunk|] eqn:Hc;
      [|apply nth_error_None in Hc; unfold n in Hi; lia].
    destruct (nth_error embeddings i) as [emb|] eqn:He;
      [|apply nth_error_None in He; unfold n in Hi; lia].
    exists chunk, emb. repeat split.
    rewrite mapi_from_nth_error, nth_error_firstn.
    apply Nat.ltb_lt in Hi. rewrite Hi, He. simpl. rewrite Hc. reflexivity.
Qed.

(** *** Uploading *)

Lemma str_eqb_refl p : str_eqb p p = true.
Proof. unfold str_eqb. destruct (list_eq_dec N.eq_dec p p); congruence. Qed.

Lemma unlink_removes p (w : World Vec) :
  ~ In p (files (fst (unlink p w))).
Proof.
  unfold unlink. destruct (existsb (str_eqb p) (files w)) eqn:E; cbn [fst files].
  - intros Hin. apply filter_In in Hin. destruct Hin as [_ Hne].
    rewrite str_eqb_refl in Hne. discriminate.
  - intros Hin.
    assert (existsb (str_eqb p) (files w) = true); [|congruence].
    apply existsb_exists. exists p. split; [assumption | apply str_eqb_refl].
Qed.

Lemma returns_without_bind {A B} p (m : M Vec A) (k : A -> M Vec B) :
  never_hangs m -> (forall a, returns_without p (k a)) ->
  returns_without p (bind m k).
Proof.
  intros Hm Hk w. unfold bind. specialize (Hm w).
  destruct (m w) as [w' [a|e|]]; cbn [fst snd] in *;
    [apply Hk | exact I | congruence].
Qed.

Lemma returns_without_unlink {A} p (r : A) :
  returns_without p (unlink (Vec := Vec) p;; ret r).
Proof.
  intros w. unfold bind. pose proof (unlink_removes p w) as Hgone.
  pose proof (never_hangs_unlink p w) as Hh.
  destruct (unlink p w) as [w' [[]|e|]]; cbn [fst snd ret] in *;
    [exact Hgone | exact I | congruence].
Qed.

Lemma embedTexts_never_hangs texts : never_hangs (embedTexts O texts).
Proof.
  unfold embedTexts. cbv zeta. outcomes.
  - destruct (_ =? _); outcomes.
  - destruct (errorDetails e); outcomes.
Qed.
#[local] Hint Resolve embedTexts_never_hangs : outcomes.

Lemma upsert_loop_never_hangs vectors starts :
  never_hangs (upsert_loop O starts vectors).
Proof. induction starts as [|i rest IH]; simpl; outcomes. Qed.
#[local] Hint Resolve upsert_loop_never_hangs : outcomes.

Lemma upload_process_returns_without file sessionId :
  returns_without (path_resolve (file_path file))
    (upload_process O file sessionId).
Proof.
  unfold upload_process. cbv zeta.
  apply returns_without_bind; [outcomes | intros data].
  apply returns_without_bind; [outcomes | intros pdfData].
  set (text := match pdfData with Some t => t | None => [] end).
  destruct (negb (truthy (trim text))); [apply returns_without_unlink|].
  destruct (chunkText_1000_total text) as [chunks Hchunks]. rewrite Hchunks.
  destruct (_ =? 0); [apply returns_without_unlink|].
  apply returns_without_bind; [outcomes | intros embeddings].
  apply returns_without_bind; [intros w; discriminate | intros vectors].
  apply returns_without_bind; [outcomes | intros _].
  apply returns_without_unlink.
Qed.

(** X22: with a session id, every exit of the upload handler leaves the
    directory without the temporary file. *)
Lemma upload_with_session_removes_file (w : World Vec) req file sessionId :
  req_file req = Some file ->
  upload_sessionId req = Some sessionId ->
  truthy sessionId = true ->
  truthy (file_path file) = true ->
  ~ In (file_path file) (files (fst (upload O req w))).
Proof.
  intros Hfile Hsid Hts Hpath.
  assert (Htry : returns_without (file_path file) (upload_try O req)).
  { unfold upload_try. rewrite Hfile, Hsid, Hts. cbn [negb].
    apply returns_without_bind; [outcomes | intros _].
    apply upload_process_returns_without. }
  unfold upload, try_catch. specialize (Htry w).
  destruct (upload_try O req w) as [w1 [r|e|]]; cbn [fst snd] in *;
    [exact Htry | | contradiction].
  unfold upload_catch. rewrite Hfile, Hpath.
  unfold bind at 1 2 3, emit, try_catch, path_resolve. cbn [history files].
  match goal with
  | |- context [unlink ?p ?w0] =>
    pose proof (unlink_removes p w0) as Hgone;
    destruct (unlink p w0) as [w2 [[]|e2|]]
  end; cbn [fst snd files bind ret emit] in *; exact Hgone.
Qed.

(** C3 fails on the code: with a file and no session id (absent or
    empty), the handler answers 400 "Missing session ID" and leaves the
    world as it found it, the temporary file included. *)
Theorem upload_missing_session_keeps_file (w : World Vec) (file : File) :
  upload O {| req_file := Some file; upload_sessionId := None |} w
  = (w, Returned (json 400 (ErrorBody (lit "Missing session ID"))))
  /\
  upload O {| req_file := Some file; upload_sessionId := Some [] |} w
  = (w, Returned (json 400 (ErrorBody (lit "Missing session ID")))).
Proof. split; reflexivity. Qed.

End ServerProperties.

(** ** The statements at sample inputs *)

Lemma embedTexts_no_valid_input_witness :
  embedTexts unavailable [lit "short"; []; [0x09; 0x0A]%N] fresh_world
  = ({| history := history fresh_world ++ [ConsoleError];
        files := files fresh_world |},
     Thrown no_valid_text).
Proof.
  apply embedTexts_no_valid_input.
  repeat constructor.
Defined.



Lemma deleteSessionVectors_swallows_witness :
  snd (deleteSessionVectors unavailable (lit "S1") fresh_world) = Returned tt
  /\
  upload unavailable upload_S1 fresh_world
  = try_catch (upload_process unavailable temp_file (lit "S1"))
      (upload_catch upload_S1)
      (fst (deleteSessionVectors unavailable (lit "S1") fresh_world)).
Proof.
  split.
  - apply (proj1 (deleteSessionVectors_swallows unavailable fresh_world
                    (lit "S1"))).
  - apply (proj2 (deleteSessionVectors_swallows unavailable fresh_world
                    (lit "S1"))); reflexivity.
Defined.

Lemma ask_no_matches_witness :
  ask empty_batches ask_S2 fresh_world
  = ({| history :=
          (history fresh_world
           ++ [CallEmbed nat (cleanText (lit "What is the main result?"))])
          ++ [CallQuery (Given 7%nat) 4 (lit "S2")];
        files := files fresh_world |},
     Returned (json 200 (AnswerBody no_relevant_information [] None))).
Proof.
  apply (@ask_no_matches nat empty_batches fresh_world ask_S2
           (lit "What is the main result?") (lit "S2") 7%nat (Some []));
    try reflexivity.
  right. reflexivity.
Defined.

Lemma buildVectors_aligned_witness :
  exists chunk emb,
    nth_error [lit "first chunk"; lit "second chunk"; lit "third chunk"] 1
    = Some chunk /\
    nth_error [10%nat; 11%nat] 1 = Some emb /\
    nth_error
      (buildVectors (lit "S1") (lit "paper.pdf")
         [lit "first chunk"; lit "second chunk"; lit "third chunk"]
         [10%nat; 11%nat] (fun _ => lit "2024-01-01T00:00:00.000Z")) 1
    = Some {| rec_id := lit "S1" ++ lit "_" ++ decimal 1;
              rec_values := emb;
              rec_metadata :=
                {| meta_text := Some chunk;
                   meta_source := lit "paper.pdf";
                   meta_chunk_index := 1;
                   meta_session_id := lit "S1";
                   meta_uploaded_at := lit "2024-01-01T00:00:00.000Z" |} |}.
Proof.
  apply (proj2 (buildVectors_aligned (lit "S1") (lit "paper.pdf")
                  [lit "first chunk"; lit "second chunk"; lit "third chunk"]
                  [10%nat; 11%nat] (fun _ => lit "2024-01-01T00:00:00.000Z"))
           1%nat).
  simpl. lia.
Defined.

(** The upload without a session id answers 400 and the temporary file
    stays; the same upload with a session id, against the same unavailable
    services, answers 500 and the file is gone. *)
Lemma upload_without_session_leaves_file :
  status_of (upload unavailable upload_without_session fresh_world) = Some 400
  /\ In (file_path temp_file)
       (files (fst (upload unavailable upload_without_session fresh_world)))
  /\ status_of (upload unavailable upload_S1 fresh_world) = Some 500
  /\ files (fst (upload unavailable upload_S1 fresh_world)) = [].
Proof. repeat split. left. reflexivity. Qed.

(** A whole upload against working services: the stale vectors are
    looked up, the file is read and parsed, its single chunk is embedded in
    one batch, one record is upserted, the file is unlinked, and the answer
    is 200 with one uploaded chunk. *)
Lemma upload_healthy_run :
  upload healthy upload_S1 fresh_world
  = ({| history :=
          [CallQuery (ZeroVector nat 768) 10000 (lit "S1");
           CallReadFile nat (lit "uploads/3f2a");
           CallPdfParse nat [];
           CallBatchEmbed nat [lit "hello world, hello"];
           CallUpsert
             [{| rec_id := lit "S1_0";
                 rec_values := 18%nat;
                 rec_metadata :=
                   {| meta_text := Some (lit "hello world, hello");
                      meta_source := lit "paper.pdf";
                      meta_chunk_index := 0;
                      meta_session_id := lit "S1";
                      meta_uploaded_at := lit "2024-01-01T00:00:00.000Z" |} |}];
           CallUnlink nat (lit "uploads/3f2a")];
        files := [] |},
     Returned (json 200 (UploadBody 1 (lit "S1")))).
Proof. vm_compute. reflexivity. Qed.

(** The 1500 clean characters of the first end-to-end scenario give two
    chunks, of 1000 and of 700 code units. *)
Lemma chunkText_1500 :
  chunkText (repeat 0x61%N 1500) 1000
  = Some [repeat 0x61%N 1000; repeat 0x61%N 700].
Proof. vm_compute. reflexivity. Qed.

(* ================================================================== *)
(** * Further properties *)

(** ** The text normalizer *)

Lemma cleanText_truthy_length t :
  truthy (cleanText t) = true -> 10 <= len (cleanText t) <= 8000.
Proof.
  unfold cleanText.
  destruct (negb (truthy t)); [discriminate|]. cbv zeta.
  destruct (len (cleaned_of t) <? 10) eqn:Eshort; [discriminate|].
  intros _. apply Z.ltb_ge in Eshort.
  destruct (len (cleaned_of t) >? 8000) eqn:Ecap.
  - apply Z.gtb_lt in Ecap. unfold substring0, len in *.
    rewrite length_firstn. lia.
  - rewrite Z.gtb_ltb in Ecap. apply Z.ltb_ge in Ecap. lia.
Qed.

(** X1: [cleanText] returns the empty string or between 10 and 8000 code
    units. *)
Theorem cleanText_length (t : jsstring) :
  cleanText t = [] \/ 10 <= len (cleanText t) <= 8000.
Proof.
  destruct (cleanText t) as [|c s] eqn:E; [left; reflexivity | right].
  rewrite <- E. apply cleanText_truthy_length. rewrite E. reflexivity.
Qed.

Lemma normal_spaces_firstn : forall n s b,
  normal_spaces b s = true -> normal_spaces b (firstn n s) = true.
Proof.
  induction n as [|n IH]; intros s b H; [reflexivity|].
  destruct s as [|c s]; [reflexivity|].
  cbn [firstn normal_spaces] in *.
  destruct (is_space c).
  - apply andb_true_iff in H. destruct H as [H Hs].
    rewrite H. simpl. apply IH. assumption.
  - apply IH. assumption.
Qed.

Lemma cleaned_of_normal text : normal_spaces false (cleaned_of text) = true.
Proof.
  unfold cleaned_of, trim, collapseSpaces.
  apply normal_spaces_trimEnd.
  apply normal_spaces_trimStart with (b := false).
  apply collapse_normal.
Qed.

Lemma normal_spaces_plain : forall s b,
  normal_spaces b s = true ->
  Forall (fun c => is_space c = true -> c = space) s.
Proof.
  induction s as [|c s IH]; intros b Hn; [constructor|].
  cbn [normal_spaces] in Hn. destruct (is_space c) eqn:Ec.
  - apply andb_true_iff in Hn. destruct Hn as [Hn Hs].
    apply andb_true_iff in Hn. destruct Hn as [Heq _].
    apply N.eqb_eq in Heq.
    constructor; [intros _; exact Heq | apply (IH true Hs)].
  - constructor; [intros X; congruence | apply (IH false Hn)].
Qed.

(** X2: in the result of [cleanText] no code unit is of a blanked block, the
    only white space is the plain space, no two spaces are adjacent, and
    the first code unit is not a space. *)
Theorem cleanText_normal_form (t : jsstring) :
  Forall (fun c => stripped c = false /\ (is_space c = true -> c = space))
    (cleanText t)
  /\ normal_spaces false (cleanText t) = true
  /\ starts_clean (cleanText t) = true.
Proof.
  assert (Hn : normal_spaces false (cleanText t) = true).
  { unfold cleanText.
    destruct (negb (truthy t)); [reflexivity|]. cbv zeta.
    destruct (len (cleaned_of t) <? 10); [reflexivity|].
    destruct (len (cleaned_of t) >? 8000); [|apply cleaned_of_normal].
    apply normal_spaces_firstn, cleaned_of_normal. }
  split; [|split; [exact Hn | apply cleanText_starts_clean]].
  pose proof (cleanText_clean t) as Hc.
  pose proof (normal_spaces_plain _ _ Hn) as Hp.
  rewrite Forall_forall in *. intros c Hin. split; [apply Hc | apply Hp]; exact Hin.
Qed.

(** X3: a text that is already in normal form, with none of the three symbol
    sequences that could still be replaced, is returned as it is. *)
Theorem cleanText_fixed_point (t : jsstring) :
  10 <= len t <= 8000 ->
  Forall (fun c => stripped c = false) t ->
  normal_spaces false t = true ->
  trim t = t ->
  occurs pat_degrees t = false ->
  occurs pat_angle t = false ->
  occurs pat_sqrt t = false ->
  cleanText t = t.
Proof.
  intros Hlen Hclean Hnorm Htrim Hdeg Hang Hsqrt.
  assert (Hgone : forall q b, In b q -> stripped b = true -> occurs q t = false).
  { intros q b Hb Hs. apply occurs_missing_unit with (b := b); [assumption|].
    intros Hin. rewrite Forall_forall in Hclean.
    specialize (Hclean b Hin). congruence. }
  assert (Hsym : replaceSymbols t = t).
  { unfold replaceSymbols.
    rewrite (replaceAll_absent pat_degrees rep_degrees t) by exact Hdeg.
    rewrite (replaceAll_absent pat_angle rep_angle t) by exact Hang.
    rewrite (replaceAll_absent pat_triangle rep_triangle t)
      by (apply Hgone with (b := 0x2020%N); [simpl; tauto | reflexivity]).
    rewrite (replaceAll_absent pat_pi rep_pi t)
      by (apply Hgone with (b := 0x20AC%N); [simpl; tauto | reflexivity]).
    apply replaceAll_absent. exact Hsqrt. }
  assert (Hcleaned : cleaned_of t = t).
  { unfold cleaned_of. rewrite Hsym, (stripBlocks_absent Hclean).
    unfold collapseSpaces. rewrite (collapse_normal_id t false Hnorm).
    exact Htrim. }
  unfold cleanText. rewrite Hcleaned.
  destruct t as [|c t]; [unfold len in Hlen; simpl in Hlen; lia|].
  cbn [truthy negb]. cbv zeta.
  destruct (len (c :: t) <? 10) eqn:E1; [apply Z.ltb_lt in E1; lia|].
  destruct (len (c :: t) >? 8000) eqn:E2; [apply Z.gtb_lt in E2; lia|].
  reflexivity.
Qed.

Lemma cleanText_fixed_point_witness :
  cleanText (lit "hello world, hello") = lit "hello world, hello".
Proof.
  apply cleanText_fixed_point; try reflexivity.
  - vm_compute. split; discriminate.
  - repeat constructor.
Defined.

Lemma stripBlocks_unit s c' :
  In c' (stripBlocks s) -> c' = space \/ (In c' s /\ stripped c' = false).
Proof.
  unfold stripBlocks, replaceClass. rewrite !map_map. intros Hin.
  apply in_map_iff in Hin. destruct Hin as [c [Hc Hin]]. subst c'.
  destruct (is_control c) eqn:E1; [left; reflexivity|].
  destruct (is_general_punctuation c) eqn:E2; [left; reflexivity|].
  destruct (is_super_subscript c) eqn:E3; [left; reflexivity|].
  destruct (is_currency c) eqn:E4; [left; reflexivity|].
  destruct (is_letterlike c) eqn:E5; [left; reflexivity|].
  right. split; [assumption|]. unfold stripped.
  rewrite E1, E2, E3, E4, E5. reflexivity.
Qed.

Lemma trimStart_all_spaces s :
  Forall (fun c => is_space c = true) s -> trimStart s = [].
Proof.
  induction 1 as [|c s Hc _ IH]; [reflexivity|].
  cbn [trimStart]. rewrite Hc. exact IH.
Qed.

Lemma count_surviving_zero s :
  count_surviving s = 0%nat -> Forall (fun c => survives c = false) s.
Proof.
  induction s as [|c s IH]; intros H; [constructor|].
  rewrite count_surviving_cons in H.
  destruct (survives c) eqn:Ec; [simpl in H; lia|].
  constructor; [exact Ec | apply IH; exact H].
Qed.

Lemma cleaned_of_blank t : count_surviving t = 0%nat -> cleaned_of t = [].
Proof.
  intros Hzero. apply count_surviving_zero in Hzero.
  assert (Hgone : forall q b, In b q -> survives b = true -> occurs q t = false).
  { intros q b Hb Hs. apply occurs_missing_unit with (b := b); [assumption|].
    intros Hin. rewrite Forall_forall in Hzero.
    specialize (Hzero b Hin). congruence. }
  assert (Hsym : replaceSymbols t = t).
  { unfold replaceSymbols.
    rewrite (replaceAll_absent pat_degrees rep_degrees t)
      by (apply Hgone with (b := 0xC2%N); [simpl; tauto | reflexivity]).
    rewrite (replaceAll_absent pat_angle rep_angle t)
      by (apply Hgone with (b := 0xE2%N); [simpl; tauto | reflexivity]).
    rewrite (replaceAll_absent pat_triangle rep_triangle t)
      by (apply Hgone with (b := 0xE2%N); [simpl; tauto | reflexivity]).
    rewrite (replaceAll_absent pat_pi rep_pi t)
      by (apply Hgone with (b := 0xCF%N); [simpl; tauto | reflexivity]).
    apply replaceAll_absent.
    apply Hgone with (b := 0xE2%N); [simpl; tauto | reflexivity]. }
  assert (Hspaces : Forall (fun c => is_space c = true) (stripBlocks t)).
  { apply Forall_forall. intros c Hin.
    destruct (stripBlocks_unit _ _ Hin) as [-> | [Hin' Hs]]; [reflexivity|].
    rewrite Forall_forall in Hzero. specialize (Hzero c Hin').
    unfold survives in Hzero. rewrite Hs in Hzero.
    destruct (is_space c); [reflexivity | discriminate]. }
  unfold cleaned_of, trim, collapseSpaces. rewrite Hsym.
  rewrite trimStart_all_spaces; [reflexivity|].
  apply Forall_collapse; [reflexivity | exact Hspaces].
Qed.

Lemma cleanText_of_empty_cleaned t : cleaned_of t = [] -> cleanText t = [].
Proof.
  intros H. unfold cleanText. rewrite H.
  destruct (negb (truthy t)); reflexivity.
Qed.

(** X4: a text made only of white space, control characters and characters of
    the blanked blocks normalizes to the empty string. *)
Theorem cleanText_blank (t : jsstring) :
  count_surviving t = 0%nat -> cleanText t = [].
Proof.
  intros Hzero. apply cleanText_of_empty_cleaned.
  apply cleaned_of_blank. exact Hzero.
Qed.

Lemma cleanText_blank_witness :
  cleanText ([0x09; 0x20; 0x20AC; 0x2014; 0x0A; 0xA0; 0x2122]%N
             ++ repeat 0x20%N 20) = [].
Proof. apply cleanText_blank. reflexivity. Defined.

(** ** The chunker *)

Lemma chunkText_loop_count text maxLen : 200 < maxLen ->
  forall fuel i chunks r,
    chunkText_loop fuel text maxLen (i, chunks) = Some r ->
    len r <= len chunks
             + window_count (Z.max 0 (len text - i)) (maxLen - 200).
Proof.
  intros Hmax. unfold window_count.
  induction fuel as [|fuel IH]; intros i chunks r H;
    cbn [chunkText_loop chunk_step] in H;
    (destruct (i <? len text) eqn:E;
     [apply Z.ltb_lt in E | apply Z.ltb_ge in E]);
    try discriminate;
    try (injection H as <-; cbn [snd];
         rewrite Z.max_l by lia;
         assert (0 <= (0 + (maxLen - 200) - 1) / (maxLen - 200))
           by (apply Z.div_pos; lia);
         lia).
  apply IH in H.
  set (s := maxLen - 200) in *.
  assert (Hc : len (if truthy (cleanText (slice i (i + maxLen) text))
                    then chunks ++ [cleanText (slice i (i + maxLen) text)]
                    else chunks) <= len chunks + 1).
  { destruct (truthy _); unfold len; [rewrite length_app; simpl|]; lia. }
  rewrite (Z.max_r 0 (len text - i)) by lia.
  assert (Hstep : (Z.max 0 (len text - (i + s)) + s - 1) / s + 1
                  <= (len text - i + s - 1) / s).
  { destruct (Z_le_gt_dec (len text) (i + s)).
    - rewrite Z.max_l by lia.
      rewrite (Z.div_small (0 + s - 1) s) by lia.
      apply Z.div_le_lower_bound; lia.
    - rewrite Z.max_r by lia.
      replace (len text - i + s - 1) with (len text - (i + s) + s - 1 + 1 * s)
        by ring.
      rewrite Z.div_add by lia. lia. }
  lia.
Qed.

(** X5: every chunk of [chunkText] has between 10 and 8000 code units, whatever
    [maxLen] is; and for [maxLen > 200] there are at most
    ceil(text.length / (maxLen - 200)) chunks. *)
Theorem chunkText_chunks (text : jsstring) (maxLen : Z)
  (chunks : list jsstring) :
  chunkText text maxLen = Some chunks ->
  Forall (fun chunk => 10 <= len chunk <= 8000) chunks
  /\ (200 < maxLen -> len chunks <= window_count (len text) (maxLen - 200)).
Proof.
  intros H. split.
  - unfold chunkText in H.
    eapply chunkText_loop_valid; [| constructor | exact H].
    intros chunk Ht. apply cleanText_truthy_length. exact Ht.
  - intros Hmax. unfold chunkText in H.
    apply (@chunkText_loop_count text maxLen Hmax) in H.
    rewrite Z.sub_0_r, Z.max_r in H by apply len_nonneg.
    change (len (@nil jsstring)) with 0 in H. lia.
Qed.

Lemma chunkText_chunks_witness :
  Forall (fun chunk => 10 <= len chunk <= 8000)
    [repeat 0x61%N 1000; repeat 0x61%N 700]
  /\ (200 < 1000 ->
      len [repeat 0x61%N 1000; repeat 0x61%N 700]
      <= window_count (len (repeat 0x61%N 1500)) (1000 - 200)).
Proof.
  apply (chunkText_chunks (repeat 0x61%N 1500) 1000). exact chunkText_1500.
Defined.




(** ** Batching *)

Lemma firstn_min_length {A} (k : nat) (l : list A) :
  firstn (Nat.min k (length l)) l = firstn k l.
Proof.
  destruct (Nat.le_gt_cases k (length l)) as [H|H].
  - rewrite Nat.min_l by exact H. reflexivity.
  - rewrite Nat.min_r by lia. rewrite firstn_all.
    symmetry. apply firstn_all2. lia.
Qed.

Lemma slice_batch {A} (l : list A) (i size : nat) :
  (i <= length l)%nat ->
  slice (Z.of_nat i) (Z.of_nat (i + size)) l = firstn size (skipn i l).
Proof.
  intros Hi. unfold slice, rel_index, len.
  destruct (Z.of_nat i <? 0) eqn:E1; [apply Z.ltb_lt in E1; lia|].
  destruct (Z.of_nat (i + size) <? 0) eqn:E2; [apply Z.ltb_lt in E2; lia|].
  rewrite (Z.min_l (Z.of_nat i)) by lia. rewrite Nat2Z.id.
  rewrite <- (firstn_min_length size (skipn i l)), length_skipn.
  f_equal. lia.
Qed.

Lemma indices_from_bound step n : forall fuel i j,
  In j (indices_from fuel i step n) -> (j < n)%nat.
Proof.
  induction fuel as [|fuel IH]; intros i j Hin; [destruct Hin|].
  cbn [indices_from] in Hin.
  destruct (i <? n)%nat eqn:E; [|destruct Hin].
  destruct Hin as [<-|Hin]; [apply Nat.ltb_lt; exact E | eapply IH; exact Hin].
Qed.

Lemma batches_from {A} (l : list A) (size : nat) : (0 < size)%nat ->
  forall fuel i,
    (length l - i <= fuel)%nat ->
    concat (map (fun i => slice (Z.of_nat i) (Z.of_nat (i + size)) l)
              (indices_from fuel i size (length l)))
    = skipn i l.
Proof.
  intros Hsize. induction fuel as [|fuel IH]; intros i Hfuel.
  - simpl. symmetry. apply skipn_all2. lia.
  - cbn [indices_from]. destruct (i <? length l)%nat eqn:E.
    + apply Nat.ltb_lt in E. cbn [map concat].
      rewrite IH by lia. rewrite slice_batch by lia.
      rewrite (Nat.add_comm i size), <- skipn_skipn.
      apply firstn_skipn.
    + apply Nat.ltb_ge in E. simpl. symmetry. apply skipn_all2. exact E.
Qed.

Lemma batches_concat {A} (l : list A) (size : nat) :
  (0 < size)%nat -> concat (batches_of size l) = l.
Proof.
  intros Hsize. unfold batches_of, for_indices.
  rewrite (@batches_from A l size Hsize (length l) 0%nat) by lia.
  reflexivity.
Qed.

Lemma batches_sizes {A} (l : list A) (size : nat) :
  (0 < size)%nat ->
  Forall (fun batch => (0 < length batch <= size)%nat) (batches_of size l).
Proof.
  intros Hsize. unfold batches_of, for_indices.
  apply Forall_forall. intros batch Hin. apply in_map_iff in Hin.
  destruct Hin as [i [<- Hi]]. apply indices_from_bound in Hi.
  rewrite slice_batch by lia.
  rewrite length_firstn, length_skipn. lia.
Qed.

(** X8: the batches a [for (i = 0; i < n; i += size)] loop slices off a list
    are that list cut into pieces: put end to end they give the list back,
    and each has at least one and at most [size] elements. *)
Theorem batches_partition {A} (l : list A) (size : nat) :
  (0 < size)%nat ->
  concat (batches_of size l) = l
  /\ Forall (fun batch => (0 < length batch <= size)%nat) (batches_of size l).
Proof.
  intros Hsize. split.
  - apply batches_concat. exact Hsize.
  - apply batches_sizes. exact Hsize.
Qed.

Lemma batches_partition_witness :
  concat (batches_of 10 (repeat 0x61%N 25)) = repeat 0x61%N 25
  /\ Forall (fun batch => (0 < length batch <= 10)%nat)
       (batches_of 10 (repeat 0x61%N 25)).
Proof. apply batches_partition. lia. Defined.

(** ** The API key check *)

Lemma split_fields sep : forall s field,
  In field (split sep s) -> ~ In sep field.
Proof.
  induction s as [|c s IH]; intros field Hin.
  - destruct Hin as [<-|[]]. intros [].
  - cbn [split] in Hin. destruct (N.eqb_spec c sep) as [Hc|Hc].
    + destruct Hin as [<-|Hin]; [intros [] | apply IH; exact Hin].
    + destruct (split sep s) as [|f fs] eqn:Es.
      * destruct Hin as [<-|[]]. intros [X|[]]. congruence.
      * destruct Hin as [<-|Hin].
        -- intros [X|X]; [congruence|]. apply (IH f); [left; reflexivity | exact X].
        -- apply IH. right. exact Hin.
Qed.

Lemma split_without sep : forall s, ~ In sep s -> split sep s = [s].
Proof.
  induction s as [|c s IH]; intros Hs; [reflexivity|].
  cbn [split]. destruct (N.eqb_spec c sep) as [Hc|Hc].
  - exfalso. apply Hs. left. exact Hc.
  - rewrite IH by (intros X; apply Hs; right; exact X). reflexivity.
Qed.

Lemma split_cons_field sep : forall a s,
  ~ In sep a -> split sep (a ++ sep :: s) = a :: split sep s.
Proof.
  induction a as [|c a IH]; intros s Ha.
  - cbn [app split]. rewrite N.eqb_refl. reflexivity.
  - cbn [app split]. destruct (N.eqb_spec c sep) as [Hc|Hc].
    + exfalso. apply Ha. left. exact Hc.
    + rewrite IH by (intros X; apply Ha; right; exact X). reflexivity.
Qed.

Lemma str_eqb_eq a b : str_eqb a b = true <-> a = b.
Proof. unfold str_eqb. destruct (list_eq_dec N.eq_dec a b); split; congruence. Qed.

Lemma token_of_bearer k :
  ~ In space k -> token_of (lit "Bearer " ++ k) = Some k.
Proof.
  intros Hk. unfold token_of.
  change (lit "Bearer " ++ k) with (lit "Bearer" ++ space :: k).
  assert (Hpre : prefixb (lit "Bearer ") (lit "Bearer" ++ space :: k) = true)
    by reflexivity.
  rewrite Hpre, split_cons_field by (vm_compute; intuition discriminate).
  rewrite split_without by exact Hk. reflexivity.
Qed.

(** X18: a request without an [x-api-key] header whose [Authorization] header
    is ["Bearer "] followed by a key without spaces passes the check exactly
    when that key is the server key. *)
Theorem requireApiKey_bearer (server_key k : jsstring) :
  ~ In space k ->
  requireApiKey server_key None (Some (lit "Bearer " ++ k)) = Next
  <-> k = server_key.
Proof.
  intros Hk. unfold requireApiKey, presented_key.
  change (truthy (lit "Bearer " ++ k)) with true. cbn [negb].
  rewrite (@token_of_bearer k Hk). cbn [opt_str_eqb].
  destruct (str_eqb k server_key) eqn:E; cbn [negb].
  - apply str_eqb_eq in E. split; [intros _; exact E | reflexivity].
  - split; [discriminate|]. intros ->. rewrite str_eqb_refl in E. discriminate.
Qed.

Lemma requireApiKey_bearer_witness :
  requireApiKey (lit "dev_token") None (Some (lit "Bearer " ++ lit "dev_token"))
  = Next
  <-> lit "dev_token" = lit "dev_token".
Proof.
  apply requireApiKey_bearer. vm_compute. intuition discriminate.
Defined.

(** X19: when the server key contains a space, no key presented in the
    ["Bearer "] form passes the check, the server key itself included: the
    token compared is one space-separated field. *)
Theorem requireApiKey_bearer_key_with_space
  (server_key : jsstring) (x_api_key authorization : option jsstring)
  (key : jsstring) :
  In space server_key ->
  presented_key x_api_key authorization = Some key ->
  prefixb (lit "Bearer ") key = true ->
  requireApiKey server_key x_api_key authorization
  = Refuse 403 (lit "Invalid API key").
Proof.
  intros Hspace Hkey Hbearer. unfold requireApiKey. rewrite Hkey.
  destruct key as [|c key]; [discriminate Hbearer|]. cbn [truthy negb].
  unfold token_of. rewrite Hbearer.
  destruct (nth_error (split space (c :: key)) 1) as [token|] eqn:Et;
    [|reflexivity].
  cbn [opt_str_eqb]. destruct (str_eqb token server_key) eqn:E; [|reflexivity].
  apply str_eqb_eq in E. subst token. apply nth_error_In in Et.
  apply split_fields in Et. contradiction.
Qed.

Lemma requireApiKey_bearer_key_with_space_witness :
  requireApiKey (lit "my secret") None (Some (lit "Bearer my secret"))
  = Refuse 403 (lit "Invalid API key").
Proof.
  apply requireApiKey_bearer_key_with_space with (key := lit "Bearer my secret").
  - vm_compute. tauto.
  - reflexivity.
  - reflexivity.
Defined.

(** ** The server, further *)

Section FurtherServerProperties.

Variable Vec : Type.
Variable O : Oracle Vec.

Create HintDb settled.

#[local] Hint Resolve never_hangs_ret never_hangs_throw never_hangs_emit
  never_hangs_call never_hangs_unlink always_returns_ret
  always_returns_emit always_returns_never_hangs
  embed_single_returns embed_individually_returns embed_batch_returns
  embed_loop_returns delete_loop_never_hangs deleteSessionVectors_returns
  embedTexts_never_hangs upsert_loop_never_hangs : settled.


(** *** Which events a function adds *)

Lemma emits_ret P {A} (a : A) : emits P (ret (Vec := Vec) a).
Proof.
  intros w. exists []. cbn [ret fst forallb].
  rewrite app_nil_r, world_eta. split; reflexivity.
Qed.

Lemma emits_throw P {A} e : emits P (throw (Vec := Vec) (A := A) e).
Proof.
  intros w. exists []. cbn [throw fst forallb].
  rewrite app_nil_r, world_eta. split; reflexivity.
Qed.

Lemma emits_emit (P : Event Vec -> bool) ev : P ev = true -> emits P (emit ev).
Proof.
  intros Hev w. exists [ev]. cbn [emit fst forallb]. rewrite Hev.
  split; reflexivity.
Qed.

Lemma emits_call (P : Event Vec -> bool) {A} ev (reply : History Vec -> Reply A) :
  P ev = true -> emits P (call ev reply).
Proof.
  intros Hev w. exists [ev]. unfold call.
  destruct (reply (history w)); cbn [fst forallb]; rewrite Hev;
    split; reflexivity.
Qed.

Lemma emits_bind P {A B} (m : M Vec A) (k : A -> M Vec B) :
  emits P m -> (forall a, emits P (k a)) -> emits P (bind m k).
Proof.
  intros Hm Hk w. unfold bind. destruct (Hm w) as [evs [Hw Hevs]].
  destruct (m w) as [w1 [a|e|]]; cbn [fst] in *;
    try (exists evs; split; assumption).
  destruct (Hk a w1) as [evs' [Hw' Hevs']].
  exists (evs ++ evs'). rewrite Hw'. subst w1. cbn [history files].
  rewrite app_assoc, forallb_app, Hevs, Hevs'. split; reflexivity.
Qed.

Lemma emits_try_catch P {A} (m : M Vec A) handler :
  emits P m -> (forall e, emits P (handler e)) -> emits P (try_catch m handler).
Proof.
  intros Hm Hh w. unfold try_catch. destruct (Hm w) as [evs [Hw Hevs]].
  destruct (m w) as [w1 [a|e|]]; cbn [fst] in *;
    try (exists evs; split; assumption).
  destruct (Hh e w1) as [evs' [Hw' Hevs']].
  exists (evs ++ evs'). rewrite Hw'. subst w1. cbn [history files].
  rewrite app_assoc, forallb_app, Hevs, Hevs'. split; reflexivity.
Qed.

Lemma emits_weaken (P Q : Event Vec -> bool) {A} (m : M Vec A) :
  (forall ev, P ev = true -> Q ev = true) -> emits P m -> emits Q m.
Proof.
  intros HPQ Hm w. destruct (Hm w) as [evs [Hw Hevs]].
  exists evs. split; [exact Hw|].
  rewrite forallb_forall in *. intros ev Hin. apply HPQ, Hevs, Hin.
Qed.

Ltac emitting :=
  repeat first
    [ apply emits_ret
    | apply emits_throw
    | apply emits_emit; reflexivity
    | apply emits_call; reflexivity
    | apply emits_bind; [|intros ?]
    | apply emits_try_catch; [|intros ?] ].

Lemma embed_individually_emits batch :
  forall all, emits embedding_event (embed_individually O batch all).
Proof.
  induction batch as [|text rest IH]; intros all; cbn [embed_individually].
  - emitting.
  - apply emits_bind; [|intros all'; apply IH].
    unfold embed_single. emitting. destruct a; emitting.
Qed.

Lemma embed_batch_emits batch all :
  emits embedding_event (embed_batch O batch all).
Proof.
  unfold embed_batch. apply emits_try_catch; [|intros e].
  - emitting. destruct a as [|[[|e es]|]]; emitting.
    destruct (all_values (e :: es)); emitting.
  - apply emits_bind; [emitting | intros _; apply embed_individually_emits].
Qed.

Lemma embed_loop_emits cleanedTexts starts :
  forall all, emits embedding_event (embed_loop O starts cleanedTexts all).
Proof.
  induction starts as [|i rest IH]; intros all; cbn [embed_loop]; [emitting|].
  apply emits_bind; [apply embed_batch_emits | intros all'].
  apply emits_bind; [destruct (_ <? _); emitting | intros _; apply IH].
Qed.

Lemma embedTexts_try_emits texts :
  emits embedding_event (embedTexts O texts).
Proof.
  unfold embedTexts. cbv zeta. apply emits_try_catch; [|intros e].
  - destruct (_ =? 0); [emitting | apply embed_loop_emits].
  - emitting. destruct (errorDetails e); emitting.
Qed.

(** X11: [embedTexts] only talks to the embedding service (and the console):
    whatever happens, it makes no call to the index, the file system, the
    parser or the chat model, and leaves the files as they are. *)
Theorem embedTexts_emits (texts : list jsstring) (w : World Vec) :
  exists evs,
    fst (embedTexts O texts w)
    = {| history := history w ++ evs; files := files w |}
    /\ forallb embedding_event evs = true.
Proof. apply embedTexts_try_emits. Qed.

Lemma delete_loop_emits sessionId vectorIds starts :
  emits (deletion_event sessionId) (delete_loop O starts vectorIds).
Proof. induction starts as [|i rest IH]; cbn [delete_loop]; emitting. exact IH. Qed.

Lemma deleteSessionVectors_only_deletes sessionId :
  emits (deletion_event sessionId) (deleteSessionVectors O sessionId).
Proof.
  unfold deleteSessionVectors, deleteSessionVectors_try.
  apply emits_try_catch; [|intros e; emitting].
  apply emits_bind.
  - apply emits_call. cbn [deletion_event]. apply str_eqb_refl.
  - intros [|[[|m ms]|]]; emitting. apply delete_loop_emits.
Qed.

(** X15: [deleteSessionVectors] only queries the index with the zero vector
    and its own session id as filter, and deletes; it embeds nothing,
    upserts nothing, and leaves the files as they are. *)
Theorem deleteSessionVectors_emits (sessionId : jsstring) (w : World Vec) :
  exists evs,
    fst (deleteSessionVectors O sessionId w)
    = {| history := history w ++ evs; files := files w |}
    /\ forallb (deletion_event sessionId) evs = true.
Proof. apply deleteSessionVectors_only_deletes. Qed.

(** *** The batches of the embedding client *)

Lemma batch_calls_app (h1 h2 : History Vec) :
  batch_calls (h1 ++ h2) = batch_calls h1 ++ batch_calls h2.
Proof.
  induction h1 as [|ev h1 IH]; [reflexivity|].
  destruct ev; simpl; rewrite IH; reflexivity.
Qed.

Lemma batch_calls_none (evs : History Vec) :
  forallb (fun ev => match ev with CallBatchEmbed _ _ => false | _ => true end)
    evs = true ->
  batch_calls evs = [].
Proof.
  induction evs as [|ev evs IH]; [reflexivity|].
  cbn [forallb]. intros H. apply andb_true_iff in H. destruct H as [Hev H].
  destruct ev; try discriminate Hev; simpl; apply IH; exact H.
Qed.

Lemma quiet_batch_calls {A} (m : M Vec A) :
  emits (fun ev => match ev with CallBatchEmbed _ _ => false | _ => true end) m ->
  forall w, batch_calls (history (fst (m w))) = batch_calls (history w).
Proof.
  intros Hm w. destruct (Hm w) as [evs [Hw Hevs]].
  rewrite Hw. cbn [history]. rewrite batch_calls_app, (batch_calls_none _ Hevs).
  apply app_nil_r.
Qed.

Lemma embed_individually_quiet batch : forall all,
  emits (fun ev => match ev with CallBatchEmbed _ _ => false | _ => true end)
    (embed_individually O batch all).
Proof.
  induction batch as [|text rest IH]; intros all; cbn [embed_individually].
  - emitting.
  - apply emits_bind; [|intros all'; apply IH].
    unfold embed_single. emitting. destruct a; emitting.
Qed.

Lemma batch_calls_try_call {A B} batch (reply : History Vec -> Reply A)
  (k : A -> M Vec B) handler w :
  (forall a, emits (fun ev => match ev with
                              | CallBatchEmbed _ _ => false
                              | _ => true end) (k a)) ->
  (forall e, emits (fun ev => match ev with
                              | CallBatchEmbed _ _ => false
                              | _ => true end) (handler e)) ->
  batch_calls (history (fst
    (try_catch (bind (call (CallBatchEmbed Vec batch) reply) k) handler w)))
  = batch_calls (history w) ++ [batch].
Proof.
  intros Hk Hh.
  set (w1 := {| history := history w ++ [CallBatchEmbed Vec batch];
                files := files w |}).
  assert (H1 : batch_calls (history w1) = batch_calls (history w) ++ [batch]).
  { unfold w1. cbn [history]. rewrite batch_calls_app. reflexivity. }
  unfold try_catch, bind, call. fold w1.
  destruct (reply (history w)) as [a|err].
  - pose proof (quiet_batch_calls (Hk a) w1) as Hr.
    destruct (k a w1) as [w2 [b|e|]]; cbn [fst] in *;
      try (rewrite Hr; exact H1).
    rewrite (quiet_batch_calls (Hh e) w2), Hr. exact H1.
  - rewrite (quiet_batch_calls (Hh err) w1). exact H1.
Qed.

Lemma embed_batch_calls batch all w :
  batch_calls (history (fst (embed_batch O batch all w)))
  = batch_calls (history w) ++ [batch].
Proof.
  unfold embed_batch. apply batch_calls_try_call.
  - intros [|[[|e es]|]]; emitting. destruct (all_values (e :: es)); emitting.
  - intros e. apply emits_bind; [emitting | intros _; apply embed_individually_quiet].
Qed.

Lemma embed_loop_batch_calls cleanedTexts starts : forall all w,
  batch_calls (history (fst (embed_loop O starts cleanedTexts all w)))
  = batch_calls (history w)
    ++ map (fun i => slice (Z.of_nat i) (Z.of_nat (i + batchSize)) cleanedTexts)
         starts.
Proof.
  induction starts as [|i rest IH]; intros all w.
  - cbn [embed_loop ret fst map]. rewrite app_nil_r. reflexivity.
  - cbn [embed_loop map]. unfold bind at 1.
    pose proof (embed_batch_calls
                  (slice (Z.of_nat i) (Z.of_nat (i + batchSize)) cleanedTexts)
                  all w) as Hb.
    destruct (embed_batch_returns O
                (slice (Z.of_nat i) (Z.of_nat (i + batchSize)) cleanedTexts)
                all w) as [all' Hret].
    destruct (embed_batch O _ all w) as [w1 out]. cbn [fst snd] in *.
    subst out. unfold bind at 1.
    destruct (Z.of_nat (i + batchSize) <? len cleanedTexts); cbn [emit ret].
    + rewrite IH. cbn [history]. rewrite batch_calls_app. cbn [batch_calls].
      rewrite app_nil_r, Hb, <- app_assoc. reflexivity.
    + rewrite IH, Hb, <- app_assoc. reflexivity.
Qed.

(** X9: whatever the embedding service answers, [embedTexts] offers every
    valid text to the batch operation exactly once and in order: the batch
    calls it adds are the cleaned, non-empty texts cut into batches of at
    most 10. *)
Theorem embedTexts_batch_calls (texts : list jsstring) (w : World Vec) :
  let cleanedTexts :=
    filter (fun text => len text >? 0) (map cleanText texts) in
  batch_calls (history (fst (embedTexts O texts w)))
  = batch_calls (history w) ++ batches_of batchSize cleanedTexts
  /\ concat (batches_of batchSize cleanedTexts) = cleanedTexts
  /\ Forall (fun batch => (0 < length batch <= batchSize)%nat)
       (batches_of batchSize cleanedTexts).
Proof.
  cbv zeta.
  set (cleanedTexts := filter (fun text => len text >? 0) (map cleanText texts)).
  split; [|split; [apply batches_concat | apply batches_sizes];
             unfold batchSize; lia].
  unfold embedTexts. cbv zeta. fold cleanedTexts. unfold try_catch.
  destruct cleanedTexts as [|t ts] eqn:Ec.
  - cbn. rewrite batch_calls_app. reflexivity.
  - rewrite <- Ec. replace (len cleanedTexts =? 0) with false
      by (rewrite Ec; reflexivity).
    pose proof (embed_loop_batch_calls cleanedTexts
                  (for_indices (length cleanedTexts) batchSize) [] w) as Hl.
    destruct (embed_loop_returns O cleanedTexts
                (for_indices (length cleanedTexts) batchSize) [] w)
      as [vs Hret].
    destruct (embed_loop O _ cleanedTexts [] w) as [w1 out].
    cbn [fst snd] in *. subst out. exact Hl.
Qed.

Lemma all_values_map {X} (f : X -> Vec) (l : list X) :
  all_values (map (fun x => Some (f x)) l) = Some (map f l).
Proof. induction l as [|x l IH]; [reflexivity|]. simpl. rewrite IH. reflexivity. Qed.

Lemma embed_loop_well_behaved (f : jsstring -> Vec) cleanedTexts :
  (forall h batch,
     batchEmbedContents O h batch
     = Resolves (BatchObject (Some (map (fun t => Some (f t)) batch)))) ->
  forall starts all w,
    snd (embed_loop O starts cleanedTexts all w)
    = Returned
        (all ++ map f
           (concat
              (map (fun i => slice (Z.of_nat i) (Z.of_nat (i + batchSize))
                               cleanedTexts) starts))).
Proof.
  intros Hgood. induction starts as [|i rest IH]; intros all w.
  - cbn. rewrite app_nil_r. reflexivity.
  - cbn [embed_loop map concat]. unfold bind at 1.
    set (batch := slice (Z.of_nat i) (Z.of_nat (i + batchSize)) cleanedTexts).
    assert (Hb : snd (embed_batch O batch all w) = Returned (all ++ map f batch)).
    { unfold embed_batch, try_catch, bind, call. rewrite Hgood.
      destruct batch as [|t ts]; [cbn; rewrite app_nil_r; reflexivity|].
      cbn [map]. change (Some (f t) :: map (fun t0 => Some (f t0)) ts)
        with (map (fun t0 => Some (f t0)) (t :: ts)).
      rewrite all_values_map. reflexivity. }
    destruct (embed_batch O batch all w) as [w1 out]. cbn [snd] in Hb.
    subst out. unfold bind at 1.
    destruct (Z.of_nat (i + batchSize) <? len cleanedTexts);
      cbn [emit ret]; rewrite IH, map_app, app_assoc; reflexivity.
Qed.

(** X10: when every batch call answers with one embedding per text, in order,
    [embedTexts] returns one embedding per valid text, in the order of the
    texts. *)
Theorem embedTexts_well_behaved (f : jsstring -> Vec)
  (texts : list jsstring) (w : World Vec) :
  (forall h batch,
     batchEmbedContents O h batch
     = Resolves (BatchObject (Some (map (fun t => Some (f t)) batch)))) ->
  (exists t, In t texts /\ cleanText t <> []) ->
  snd (embedTexts O texts w)
  = Returned
      (map f (filter (fun text => len text >? 0) (map cleanText texts))).
Proof.
  intros Hgood [t [Hin Ht]]. unfold embedTexts. cbv zeta.
  set (cleanedTexts := filter (fun text => len text >? 0) (map cleanText texts)).
  assert (Hne : (len cleanedTexts =? 0) = false).
  { assert (Hc : In (cleanText t) cleanedTexts).
    { apply filter_In. split; [apply in_map; exact Hin|].
      destruct (cleanText t); [congruence | reflexivity]. }
    destruct cleanedTexts; [destruct Hc | reflexivity]. }
  rewrite Hne. unfold try_catch.
  pose proof (embed_loop_well_behaved f cleanedTexts Hgood
                (for_indices (length cleanedTexts) batchSize) [] w) as Hl.
  destruct (embed_loop O _ cleanedTexts [] w) as [w1 out].
  cbn [snd] in *. subst out. cbn [app snd].
  pose proof (@batches_concat _ cleanedTexts batchSize
                ltac:(unfold batchSize; lia)) as Hp.
  unfold batches_of in Hp. f_equal. f_equal. exact Hp.
Qed.

(** *** Deleting the vectors of a session *)

Lemma deleted_ids_app (h1 h2 : History Vec) :
  deleted_ids (h1 ++ h2) = deleted_ids h1 ++ deleted_ids h2.
Proof.
  induction h1 as [|ev h1 IH]; [reflexivity|].
  destruct ev; simpl; rewrite IH, ?app_assoc; reflexivity.
Qed.

Lemma firstn_add {A} (a b : nat) : forall l : list A,
  firstn (a + b) l = firstn a l ++ firstn b (skipn a l).
Proof.
  induction a as [|a IH]; intros l; [reflexivity|].
  destruct l as [|x l]; [simpl; rewrite firstn_nil; reflexivity|].
  simpl. rewrite IH. reflexivity.
Qed.

Lemma delete_loop_ids ids : forall fuel i w,
  exists k,
    deleted_ids (history (fst
      (delete_loop O (indices_from fuel i 1000 (length ids)) ids w)))
    = deleted_ids (history w) ++ firstn k (skipn i ids).
Proof.
  induction fuel as [|fuel IH]; intros i w.
  - exists 0%nat. cbn. rewrite app_nil_r. reflexivity.
  - cbn [indices_from]. destruct (i <? length ids)%nat eqn:E.
    + apply Nat.ltb_lt in E. cbn [delete_loop]. unfold bind, call.
      rewrite slice_batch by lia.
      set (batch := firstn 1000 (skipn i ids)).
      destruct (deleteMany O (history w) batch) as [[]|err].
      * destruct (IH (i + 1000)%nat
                    {| history := history w ++ [CallDeleteMany Vec batch];
                       files := files w |}) as [k Hk].
        exists (1000 + k)%nat. rewrite Hk. cbn [history].
        rewrite deleted_ids_app, firstn_add, skipn_skipn, <- app_assoc.
        cbn [deleted_ids]. rewrite app_nil_r.
        rewrite (Nat.add_comm 1000 i). reflexivity.
      * exists 1000%nat. cbn [fst history].
        rewrite deleted_ids_app. cbn [deleted_ids]. rewrite app_nil_r.
        reflexivity.
    + exists 0%nat. cbn. rewrite app_nil_r. reflexivity.
Qed.

Lemma delete_loop_all ids :
  (forall h batch, deleteMany O h batch = Resolves tt) ->
  forall fuel i w,
    (length ids - i <= fuel)%nat ->
    deleted_ids (history (fst
      (delete_loop O (indices_from fuel i 1000 (length ids)) ids w)))
    = deleted_ids (history w) ++ skipn i ids
    /\ snd (delete_loop O (indices_from fuel i 1000 (length ids)) ids w)
       = Returned tt.
Proof.
  intros Hgood. induction fuel as [|fuel IH]; intros i w Hfuel.
  - cbn. rewrite skipn_all2 by lia. rewrite app_nil_r. split; reflexivity.
  - cbn [indices_from]. destruct (i <? length ids)%nat eqn:E.
    + apply Nat.ltb_lt in E. cbn [delete_loop]. unfold bind, call.
      rewrite slice_batch by lia. rewrite Hgood.
      destruct (IH (i + 1000)%nat
                  {| history := history w
                                ++ [CallDeleteMany Vec (firstn 1000 (skipn i ids))];
                     files := files w |}) as [Hk Hr]; [lia|].
      rewrite Hk, Hr. cbn [history]. split; [|reflexivity].
      rewrite deleted_ids_app, <- app_assoc. cbn [deleted_ids].
      rewrite app_nil_r, (Nat.add_comm i 1000), <- skipn_skipn, firstn_skipn.
      reflexivity.
    + apply Nat.ltb_ge in E. cbn. rewrite skipn_all2 by lia.
      rewrite app_nil_r. split; reflexivity.
Qed.

(** X13: when the session has no vector (the query returns no or an empty
    [matches]), [deleteSessionVectors] stops after its query: nothing is
    deleted and nothing is logged. *)
Theorem deleteSessionVectors_nothing_to_delete (w : World Vec)
  (sessionId : jsstring) (matches : option (list Match)) :
  query O (history w) (ZeroVector Vec 768) 10000 sessionId
  = Resolves (QueryObject matches) ->
  matches = None \/ matches = Some [] ->
  deleteSessionVectors O sessionId w
  = ({| history := history w
                   ++ [CallQuery (ZeroVector Vec 768) 10000 sessionId];
        files := files w |},
     Returned tt).
Proof.
  intros Hq Hm. unfold deleteSessionVectors, deleteSessionVectors_try,
    try_catch, bind, call.
  rewrite Hq. destruct Hm as [-> | ->]; reflexivity.
Qed.

(** X14: when the query returns matches, the ids handed to [deleteMany] are a
    prefix of the ids of the matches, in their order, and nothing else is
    ever deleted; when every delete call succeeds, they are all the ids of
    the matches. *)
Theorem deleteSessionVectors_deletes_matches (w : World Vec)
  (sessionId : jsstring) (matches : list Match) :
  query O (history w) (ZeroVector Vec 768) 10000 sessionId
  = Resolves (QueryObject (Some matches)) ->
  (exists k,
     deleted_ids (history (fst (deleteSessionVectors O sessionId w)))
     = deleted_ids (history w) ++ firstn k (map match_id matches))
  /\
  ((forall h batch, deleteMany O h batch = Resolves tt) ->
   deleted_ids (history (fst (deleteSessionVectors O sessionId w)))
   = deleted_ids (history w) ++ map match_id matches).
Proof.
  intros Hq.
  set (w1 := {| history := history w
                           ++ [CallQuery (ZeroVector Vec 768) 10000 sessionId];
                files := files w |}).
  assert (H1 : deleted_ids (history w1) = deleted_ids (history w)).
  { unfold w1. cbn [history]. rewrite deleted_ids_app. apply app_nil_r. }
  assert (Heq : deleteSessionVectors O sessionId w
                = match matches with
                  | [] => (w1, Returned tt)
                  | _ :: _ =>
                    try_catch
                      (delete_loop O
                         (for_indices (length (map match_id matches)) 1000)
                         (map match_id matches))
                      (fun _ => emit ConsoleError) w1
                  end).
  { unfold deleteSessionVectors, deleteSessionVectors_try, try_catch at 1,
      bind, call. rewrite Hq. fold w1.
    destruct matches; reflexivity. }
  rewrite Heq. destruct matches as [|m ms].
  { split; [exists 0%nat | intros _]; cbn [fst]; rewrite H1, app_nil_r;
      reflexivity. }
  set (ids := map match_id (m :: ms)).
  unfold try_catch, for_indices. split.
  - destruct (delete_loop_ids ids (length ids) 0 w1) as [k Hk].
    exists k.
    destruct (delete_loop O (indices_from (length ids) 0 1000 (length ids))
                ids w1) as [w' [[]|e|]];
      cbn [fst emit history] in *; rewrite ?deleted_ids_app;
      cbn [deleted_ids]; rewrite ?app_nil_r, Hk, H1; reflexivity.
  - intros Hgood.
    destruct (@delete_loop_all ids Hgood (length ids) 0%nat w1 ltac:(lia))
      as [Hk _].
    destruct (delete_loop O (indices_from (length ids) 0 1000 (length ids))
                ids w1) as [w' [[]|e|]];
      cbn [fst emit history] in *; rewrite ?deleted_ids_app;
      cbn [deleted_ids]; rewrite ?app_nil_r, Hk, H1; reflexivity.
Qed.

(** *** The session routes *)


(** X17: the session route always answers; it says that the session exists
    exactly when the query returns at least one match, and naming the
    document of the first one; it answers 500 exactly when the query fails. *)
Theorem session_info_reports (w : World Vec) (sessionId : jsstring) :
  exists resp,
    snd (session_info O sessionId w) = Returned resp
    /\ (forall document uploaded_at,
          session_body resp = SessionExists document uploaded_at sessionId
          <-> exists m ms,
                query O (history w) (ZeroVector Vec 768) 1 sessionId
                = Resolves (QueryObject (Some (m :: ms)))
                /\ document = meta_source (match_metadata m)
                /\ uploaded_at = meta_uploaded_at (match_metadata m))
    /\ (session_status resp = 500
        <-> query O (history w) (ZeroVector Vec 768) 1 sessionId
            = Resolves QueryNullish
            \/ exists e, query O (history w) (ZeroVector Vec 768) 1 sessionId
                         = Rejects e).
Proof.
  unfold session_info, try_catch, bind, call, session_catch.
  destruct (query O (history w) (ZeroVector Vec 768) 1 sessionId)
    as [[|[[|m ms]|]]|e]; cbn [throw ret emit bind snd];
    eexists; (split; [reflexivity|]);
    cbn [session_body session_status session_json]; split.
  - intros d u. split; [discriminate | intros [m [ms [H _]]]; discriminate H].
  - split; [intros _; left; reflexivity | reflexivity].
  - intros d u. split; [discriminate | intros [m [ms [H _]]]; discriminate H].
  - split; [discriminate | intros [H|[e H]]; discriminate H].
  - intros d u. split.
    + intros H. injection H as <- <-. exists m, ms. repeat split.
    + intros [m' [ms' [H [-> ->]]]]. injection H as <- _. reflexivity.
  - split; [discriminate | intros [H|[e H]]; discriminate H].
  - intros d u. split; [discriminate | intros [m [ms [H _]]]; discriminate H].
  - split; [discriminate | intros [H|[e H]]; discriminate H].
  - intros d u. split; [discriminate | intros [m [ms [H _]]]; discriminate H].
  - split; [intros _; right; exists e; reflexivity | reflexivity].
Qed.

(** *** Asking, further *)







(** X21: with matches, the ask route sends one prompt to the chat model, made
    of the fixed instruction, the texts of the matches in their order
    separated by a line of dashes, and the question as it was asked (not as
    cleaned); it answers 200 with the model's answer and one source per
    match, in the order of the matches. *)
Theorem ask_answers (w : World Vec) (req : AskRequest)
  (question sessionId : jsstring) (qEmb : Vec)
  (m : Match) (ms : list Match) (answer : jsstring) :
  ask_question req = Some question ->
  truthy question = true ->
  ask_sessionId req = Some sessionId ->
  truthy sessionId = true ->
  truthy (cleanText question) = true ->
  let topK := match ask_topK req with Some k => k | None => 4 end in
  let embedded := history w ++ [CallEmbed Vec (cleanText question)] in
  let queried := embedded ++ [CallQuery (Given qEmb) topK sessionId] in
  let prompt :=
    systemInstruction ++ newline ++ newline
    ++ lit "Context from the uploaded document:" ++ newline
    ++ join (newline ++ lit "---" ++ newline)
         (map (fun m => meta_text (match_metadata m)) (m :: ms))
    ++ newline ++ newline ++ lit "Question: " ++ question in
  embedContent O (history w) (cleanText question) = Resolves (Some qEmb) ->
  query O embedded (Given qEmb) topK sessionId
  = Resolves (QueryObject (Some (m :: ms))) ->
  generateContent O queried prompt = Resolves answer ->
  ask O req w
  = ({| history := queried ++ [CallGenerate Vec prompt]; files := files w |},
     Returned (json 200
       (AnswerBody answer (map source_of (m :: ms)) (Some sessionId)))).
Proof.
  intros Hq Htq Hs Hts Hclean topK embedded queried prompt
    Hembed Hquery Hgen.
  unfold ask, ask_try. rewrite Hq, Htq, Hs, Hts, Hclean. cbn [negb].
  unfold try_catch, bind at 1, call. rewrite Hembed.
  unfold bind at 1, call. cbn [history files].
  fold topK. fold embedded. rewrite Hquery.
  replace (len (m :: ms) =? 0) with false by reflexivity.
  unfold bind, call. cbn [history files]. fold queried.
  change (systemInstruction ++ newline ++ newline
          ++ (lit "Context from the uploaded document:" ++ newline
              ++ join (newline ++ lit "---" ++ newline)
                   (map (fun m0 => meta_text (match_metadata m0)) (m :: ms))
              ++ newline ++ newline ++ lit "Question: " ++ question))
    with prompt.
  rewrite Hgen. reflexivity.
Qed.

(** *** Uploading, further *)

Lemma grows_of_emits {A} P (m : M Vec A) : emits P m -> grows m.
Proof.
  intros Hm w. destruct (Hm w) as [evs [Hw _]]. exists evs. rewrite Hw.
  reflexivity.
Qed.

Lemma grows_unlink p : grows (unlink (Vec := Vec) p).
Proof.
  intros w. exists [CallUnlink Vec p]. unfold unlink.
  destruct (existsb (str_eqb p) (files w)); reflexivity.
Qed.

Lemma grows_bind {A B} (m : M Vec A) (k : A -> M Vec B) :
  grows m -> (forall a, grows (k a)) -> grows (bind m k).
Proof.
  intros Hm Hk w. unfold bind. destruct (Hm w) as [evs Hw].
  destruct (m w) as [w1 [a|e|]]; cbn [fst] in *; try (exists evs; exact Hw).
  destruct (Hk a w1) as [evs' Hw']. exists (evs ++ evs').
  rewrite Hw', Hw, app_assoc. reflexivity.
Qed.

Lemma grows_try_catch {A} (m : M Vec A) handler :
  grows m -> (forall e, grows (handler e)) -> grows (try_catch m handler).
Proof.
  intros Hm Hh w. unfold try_catch. destruct (Hm w) as [evs Hw].
  destruct (m w) as [w1 [a|e|]]; cbn [fst] in *; try (exists evs; exact Hw).
  destruct (Hh e w1) as [evs' Hw']. exists (evs ++ evs').
  rewrite Hw', Hw, app_assoc. reflexivity.
Qed.

Lemma grows_pure {A} (f : World Vec -> A) :
  grows (fun w => (w, Returned (f w))).
Proof. intros w. exists []. cbn [fst]. rewrite app_nil_r. reflexivity. Qed.

Ltac growing :=
  repeat first
    [ apply grows_unlink
    | apply grows_pure
    | solve [apply (grows_of_emits (P := fun _ => true)); emitting]
    | apply grows_bind; [|intros ?]
    | apply grows_try_catch; [|intros ?] ].

Lemma upsert_loop_grows vectors starts : grows (upsert_loop O starts vectors).
Proof.
  induction starts as [|i rest IH]; cbn [upsert_loop]; growing. exact IH.
Qed.

Lemma upload_process_grows file sessionId :
  grows (upload_process O file sessionId).
Proof.
  unfold upload_process. cbv zeta. growing.
  destruct (negb (truthy (trim _))); [growing|].
  destruct (chunkText _ 1000) as [chunks|];
    [|intros w; exists []; cbn; rewrite app_nil_r; reflexivity].
  destruct (_ =? 0); [growing|].
  apply grows_bind; [apply (grows_of_emits (embedTexts_try_emits _))|intros ?].
  growing. apply upsert_loop_grows.
Qed.

Lemma upload_catch_grows req e : grows (upload_catch (Vec := Vec) req e).
Proof.
  unfold upload_catch. growing.
  destruct (req_file req) as [file|]; [|growing].
  destruct (truthy (file_path file)); growing.
Qed.

Lemma starts_with_call_bind {A B} ev (reply : History Vec -> Reply A)
  (k : A -> M Vec B) :
  (forall a, grows (k a)) -> starts_with ev (bind (call ev reply) k).
Proof.
  intros Hk w. unfold bind, call.
  destruct (reply (history w)) as [a|e]; [|exists []; reflexivity].
  destruct (Hk a {| history := history w ++ [ev]; files := files w |})
    as [evs Hw].
  exists evs. rewrite Hw. cbn [history]. rewrite <- app_assoc. reflexivity.
Qed.

Lemma starts_with_then {A B} ev (m : M Vec A) (k : A -> M Vec B) :
  starts_with ev m -> (forall a, grows (k a)) -> starts_with ev (bind m k).
Proof.
  intros Hm Hk w. unfold bind. destruct (Hm w) as [evs Hw].
  destruct (m w) as [w1 [a|e|]]; cbn [fst] in *; try (exists evs; exact Hw).
  destruct (Hk a w1) as [evs' Hw']. exists (evs ++ evs').
  rewrite Hw', Hw, <- app_assoc. reflexivity.
Qed.

Lemma starts_with_try_catch {A} ev (m : M Vec A) handler :
  starts_with ev m -> (forall e, grows (handler e)) ->
  starts_with ev (try_catch m handler).
Proof.
  intros Hm Hh w. unfold try_catch. destruct (Hm w) as [evs Hw].
  destruct (m w) as [w1 [a|e|]]; cbn [fst] in *; try (exists evs; exact Hw).
  destruct (Hh e w1) as [evs' Hw']. exists (evs ++ evs').
  rewrite Hw', Hw, <- app_assoc. reflexivity.
Qed.

(** X23: an upload with a file and a session id begins with the query for the
    stale vectors of the session, before the file is read: the vectors of
    the session are dealt with even when the document is rejected later. *)
Theorem upload_deletes_first (w : World Vec) (req : UploadRequest)
  (file : File) (sessionId : jsstring) :
  req_file req = Some file ->
  upload_sessionId req = Some sessionId ->
  truthy sessionId = true ->
  exists evs,
    history (fst (upload O req w))
    = history w ++ CallQuery (ZeroVector Vec 768) 10000 sessionId :: evs.
Proof.
  intros Hfile Hsid Hts. revert w.
  change (starts_with (CallQuery (ZeroVector Vec 768) 10000 sessionId)
            (upload O req)).
  unfold upload, upload_try. rewrite Hfile, Hsid, Hts. cbn [negb].
  apply starts_with_try_catch; [|intros e; apply upload_catch_grows].
  apply starts_with_then; [|intros _; apply upload_process_grows].
  unfold deleteSessionVectors, deleteSessionVectors_try.
  apply starts_with_try_catch; [|intros e; growing].
  apply starts_with_call_bind.
  intros [|[[|m ms]|]]; growing.
  apply (grows_of_emits (delete_loop_emits sessionId _ _)).
Qed.


End FurtherServerProperties.

(** ** The further statements at sample inputs *)

Lemma embedTexts_well_behaved_witness :
  snd (embedTexts healthy [lit "hello world"; lit "short"; lit "hello there, moon"]
         fresh_world)
  = Returned
      (map (@length code_unit)
         (filter (fun text => len text >? 0)
            (map cleanText
               [lit "hello world"; lit "short"; lit "hello there, moon"]))).
Proof.
  apply (@embedTexts_well_behaved nat healthy (@length code_unit)).
  - intros h batch. reflexivity.
  - exists (lit "hello world"). split; [left; reflexivity|].
    vm_compute. discriminate.
Defined.

Lemma deleteSessionVectors_nothing_to_delete_witness :
  deleteSessionVectors healthy (lit "S1") fresh_world
  = ({| history := history fresh_world
                   ++ [CallQuery (ZeroVector nat 768) 10000 (lit "S1")];
        files := files fresh_world |},
     Returned tt).
Proof.
  apply (@deleteSessionVectors_nothing_to_delete nat healthy fresh_world
           (lit "S1") (Some [])).
  - reflexivity.
  - right. reflexivity.
Defined.

Lemma deleteSessionVectors_deletes_matches_witness :
  (exists k,
     deleted_ids (history (fst (deleteSessionVectors indexed (lit "S1")
                                  fresh_world)))
     = deleted_ids (history fresh_world)
       ++ firstn k (map match_id sample_matches))
  /\
  ((forall h batch, deleteMany indexed h batch = Resolves tt) ->
   deleted_ids (history (fst (deleteSessionVectors indexed (lit "S1")
                                fresh_world)))
   = deleted_ids (history fresh_world) ++ map match_id sample_matches).
Proof.
  apply (@deleteSessionVectors_deletes_matches nat indexed fresh_world
           (lit "S1") sample_matches).
  reflexivity.
Defined.


Lemma ask_answers_witness :
  ask indexed ask_S2 fresh_world
  = ({| history :=
          ((history fresh_world
            ++ [CallEmbed nat (cleanText (lit "What is the main result?"))])
           ++ [CallQuery (Given 24%nat) 4 (lit "S2")])
          ++ [CallGenerate nat
                (systemInstruction ++ newline ++ newline
                 ++ lit "Context from the uploaded document:" ++ newline
                 ++ join (newline ++ lit "---" ++ newline)
                      (map (fun m => meta_text (match_metadata m))
                         sample_matches)
                 ++ newline ++ newline ++ lit "Question: "
                 ++ lit "What is the main result?")];
        files := files fresh_world |},
     Returned (json 200
       (AnswerBody (lit "It is 42.") (map source_of sample_matches)
          (Some (lit "S2"))))).
Proof.
  apply (@ask_answers nat indexed fresh_world ask_S2
           (lit "What is the main result?") (lit "S2") 24%nat
           {| match_id := lit "S1_0"; match_metadata := sample_metadata 0 |}
           [{| match_id := lit "S1_1"; match_metadata := sample_metadata 1 |}]
           (lit "It is 42."));
    reflexivity.
Defined.

Lemma upload_deletes_first_witness :
  exists evs,
    history (fst (upload unavailable upload_S1 fresh_world))
    = history fresh_world
      ++ CallQuery (ZeroVector nat 768) 10000 (lit "S1") :: evs.
Proof.
  apply (@upload_deletes_first nat unavailable fresh_world upload_S1
           temp_file (lit "S1")); reflexivity.
Defined.

Lemma upload_with_session_removes_file_witness :
  ~ In (file_path temp_file)
      (files (fst (upload unavailable upload_S1 fresh_world))).
Proof.
  apply (@upload_with_session_removes_file nat unavailable fresh_world
           upload_S1 temp_file (lit "S1")); reflexivity.
Defined.

(** ** Documents without content *)

Lemma Forall_skipn_keep {A} (P : A -> Prop) : forall n l,
  Forall P l -> Forall P (skipn n l).
Proof.
  induction n as [|n IH]; intros l H; [exact H|].
  destruct H; simpl; [constructor | apply IH; assumption].
Qed.

Lemma count_surviving_none s :
  Forall (fun c => survives c = false) s -> count_surviving s = 0%nat.
Proof.
  induction 1 as [|c s Hc _ IH]; [reflexivity|].
  rewrite count_surviving_cons, Hc, IH. reflexivity.
Qed.

Lemma chunkText_loop_blank text maxLen :
  count_surviving text = 0%nat ->
  forall fuel i chunks r,
    chunkText_loop fuel text maxLen (i, chunks) = Some r -> r = chunks.
Proof.
  intros Hblank.
  assert (Hwin : forall i j, cleanText (slice i j text) = []).
  { intros i j. apply cleanText_of_empty_cleaned, cleaned_of_blank,
      count_surviving_none.
    unfold slice. apply Forall_firstn_keep, Forall_skipn_keep.
    apply count_surviving_zero. exact Hblank. }
  induction fuel as [|fuel IH]; intros i chunks r H;
    cbn [chunkText_loop chunk_step] in H;
    destruct (i <? len text); try discriminate;
    try (injection H as <-; reflexivity).
  rewrite Hwin in H. cbn [truthy] in H. apply IH in H. exact H.
Qed.

(** A text made only of white space, control characters and characters of
    the blanked blocks gives no chunk. *)
Lemma chunkText_blank text maxLen chunks :
  count_surviving text = 0%nat ->
  chunkText text maxLen = Some chunks -> chunks = [].
Proof.
  intros Hblank H. unfold chunkText in H.
  apply (@chunkText_loop_blank text maxLen Hblank) in H. exact H.
Qed.

Section Documents.

Variable Vec : Type.
Variable O : Oracle Vec.

(** A batch call that makes the [try] block throw hands the batch over to
    the retries. *)
Lemma embed_batch_throws (w : World Vec) batch all :
  batch_throws (batchEmbedContents O (history w) batch) = true ->
  exists h' vs,
    Retried O (history w ++ [CallBatchEmbed Vec batch] ++ [ConsoleError])
      batch h' vs
    /\ embed_batch O batch all w
       = ({| history := h'; files := files w |}, Returned (all ++ vs)).
Proof.
  intros Hthrows.
  destruct (embed_individually_retried O batch all
              {| history := (history w ++ [CallBatchEmbed Vec batch])
                            ++ [ConsoleError];
                 files := files w |}) as [h' [vs [Hr Heq]]].
  exists h', vs. cbn [history files] in Hr, Heq. rewrite <- app_assoc in Hr.
  split; [exact Hr|].
  unfold embed_batch, try_catch, bind at 1, call.
  destruct (batchEmbedContents O (history w) batch)
    as [[|[[|e es]|]]|err]; try discriminate Hthrows;
    cbn [throw];
    try (unfold bind, emit; cbn [history files]; exact Heq).
  cbn [batch_throws] in Hthrows.
  destruct (all_values (e :: es)); [discriminate Hthrows|].
  unfold bind, emit, throw; cbn [history files]. exact Heq.
Qed.

(** X25: an upload whose PDF text has no character that survives cleaning (a
    scanned or blank document) is answered 400 after the file was read,
    parsed and unlinked: the embedding service is not called and nothing is
    upserted.  The message tells whether the text was all white space. *)
Theorem upload_blank_document (w : World Vec) (req : UploadRequest)
  (file : File) (sessionId : jsstring) (data : bytes)
  (pdfText : option jsstring) :
  req_file req = Some file ->
  upload_sessionId req = Some sessionId ->
  truthy sessionId = true ->
  In (file_path file) (files w) ->
  let w1 := fst (deleteSessionVectors O sessionId w) in
  let text := match pdfText with Some t => t | None => [] end in
  readFile O (history w1) (file_path file) = Resolves data ->
  pdfParse O (history w1 ++ [CallReadFile Vec (file_path file)]) data
  = Resolves pdfText ->
  count_surviving text = 0%nat ->
  upload O req w
  = ({| history := history w1
                   ++ [CallReadFile Vec (file_path file);
                       CallPdfParse Vec data;
                       CallUnlink Vec (file_path file)];
        files := filter (fun p => negb (str_eqb (file_path file) p)) (files w) |},
     Returned (json 400 (ErrorBody
       (if truthy (trim text)
        then lit "PDF contains no processable text content after cleaning."
        else lit "PDF contains no readable text content.")))).
Proof.
  intros Hfile Hsid Hts Hin w1 text Hread Hparse Hblank.
  unfold upload, upload_try. rewrite Hfile, Hsid, Hts. cbn [negb].
  unfold try_catch at 1, bind at 1.
  destruct (deleteSessionVectors_returns O sessionId w) as [[] Hret].
  pose proof (deleteSessionVectors_only_deletes O sessionId w) as Hkeep.
  subst w1.
  destruct (deleteSessionVectors O sessionId w) as [w1 out].
  cbn [fst snd] in *. subst out.
  change (match upload_process O file sessionId w1 with
          | (w', Thrown e) => upload_catch req e w'
          | r => r
          end)
    with (try_catch (upload_process O file sessionId) (upload_catch req) w1).
  assert (Hfiles : files w1 = files w).
  { destruct Hkeep as [evs [Hw _]]. rewrite Hw. reflexivity. }
  assert (Hthere : existsb (str_eqb (file_path file)) (files w) = true).
  { apply existsb_exists. exists (file_path file).
    split; [exact Hin | apply str_eqb_refl]. }
  unfold try_catch, upload_process, path_resolve. cbv zeta.
  unfold bind at 1, call. rewrite Hread.
  unfold bind at 1, call. cbn [history files]. rewrite Hparse. fold text.
  destruct (truthy (trim text)) eqn:Etrim; cbn [negb].
  - destruct (chunkText_1000_total text) as [chunks Hchunks].
    rewrite Hchunks. rewrite (chunkText_blank _ _ Hblank Hchunks).
    cbn [filter len length Z.of_nat Z.eqb].
    unfold bind, unlink. cbn [history files]. rewrite Hfiles, Hthere.
    cbn [ret]. rewrite <- !app_assoc. reflexivity.
  - unfold bind, unlink. cbn [history files]. rewrite Hfiles, Hthere.
    cbn [ret]. rewrite <- !app_assoc. reflexivity.
Qed.

(** X12: embeddings are paired with chunks by position: when the batch call
    throws, the retry of the first of two texts fails and the retry of the
    second succeeds, [embedTexts] returns the one embedding of the second
    text, and the record built at index 0 carries the first chunk's text
    with the second text's embedding. *)
Theorem skipped_text_shifts_embeddings (w : World Vec) (c0 c1 : jsstring)
  (values : Vec) (sessionId source : jsstring) (now : nat -> jsstring) :
  cleanText c0 = c0 -> c0 <> [] ->
  cleanText c1 = c1 -> c1 <> [] ->
  let h1 := history w ++ [CallBatchEmbed Vec [c0; c1]] ++ [ConsoleError] in
  let h2 := h1 ++ [CallEmbed Vec c0] ++ [ConsoleError] ++ [ConsoleError] in
  batch_throws (batchEmbedContents O (history w) [c0; c1]) = true ->
  (embedContent O h1 c0 = Resolves None
   \/ exists e, embedContent O h1 c0 = Rejects e) ->
  embedContent O h2 c1 = Resolves (Some values) ->
  snd (embedTexts O [c0; c1] w) = Returned [values]
  /\ nth_error (buildVectors sessionId source [c0; c1] [values] now) 0
     = Some {| rec_id := sessionId ++ lit "_" ++ decimal 0;
               rec_values := values;
               rec_metadata :=
                 {| meta_text := Some c0;
                    meta_source := source;
                    meta_chunk_index := 0;
                    meta_session_id := sessionId;
                    meta_uploaded_at := now 0%nat |} |}.
Proof.
  intros Hc0 Hn0 Hc1 Hn1 h1 h2 Hthrows Hfail Hok.
  split; [|reflexivity].
  destruct (@embed_batch_throws w [c0; c1] [] Hthrows)
    as [h' [vs [Hr Heq]]].
  assert (Hvs : vs = [values]).
  { fold h1 in Hr. inversion Hr as [| ? ? ? v ? ? Hv Hrest | ? ? ? ? ? Hsk Hrest];
      subst.
    - destruct Hfail as [Hf|[e Hf]]; congruence.
    - fold h2 in Hrest.
      inversion Hrest as [| ? ? ? v ? ? Hv Hrest' | ? ? ? ? ? Hsk' Hrest'];
        subst.
      + inversion Hrest'; subst. congruence.
      + destruct Hsk' as [Hf|[e Hf]]; congruence. }
  subst vs. unfold embedTexts. cbv zeta. cbn [map filter].
  rewrite Hc0, Hc1.
  destruct c0 as [|a0 c0]; [congruence|]. destruct c1 as [|a1 c1]; [congruence|].
  replace (len (a0 :: c0) >? 0) with true by reflexivity.
  replace (len (a1 :: c1) >? 0) with true by reflexivity.
  cbn [filter].
  replace (len [a0 :: c0; a1 :: c1] =? 0) with false by reflexivity.
  assert (Hloop : embed_loop O
                    (for_indices (length [a0 :: c0; a1 :: c1]) batchSize)
                    [a0 :: c0; a1 :: c1] [] w
                  = ({| history := h'; files := files w |}, Returned [values])).
  { change (embed_loop O (for_indices (length [a0 :: c0; a1 :: c1]) batchSize)
              [a0 :: c0; a1 :: c1] [] w)
      with (bind (embed_batch O [a0 :: c0; a1 :: c1] [])
              (fun all' => bind (ret tt) (fun _ => ret all')) w).
    unfold bind.
    match goal with
    | |- context [embed_batch ?o ?b ?a ?w0] =>
      replace (embed_batch o b a w0)
        with ({| history := h'; files := files w |},
              Returned ([] ++ [values]) : Outcome (list Vec))
        by (symmetry; exact Heq)
    end.
    reflexivity. }
  unfold try_catch.
  match goal with
  | |- context [embed_loop ?o ?st ?c ?a ?w0] =>
    replace (embed_loop o st c a w0)
      with ({| history := h'; files := files w |},
            Returned [values] : Outcome (list Vec))
      by (symmetry; exact Hloop)
  end.
  reflexivity.
Qed.

End Documents.

Lemma upload_blank_document_witness :
  upload blank_pdf upload_S1 fresh_world
  = ({| history :=
          history (fst (deleteSessionVectors blank_pdf (lit "S1") fresh_world))
          ++ [CallReadFile nat (file_path temp_file);
              CallPdfParse nat [];
              CallUnlink nat (file_path temp_file)];
        files := filter (fun p => negb (str_eqb (file_path temp_file) p))
                   (files fresh_world) |},
     Returned (json 400 (ErrorBody
       (if truthy (trim [0x01; 0x20; 0x0C]%N)
        then lit "PDF contains no processable text content after cleaning."
        else lit "PDF contains no readable text content.")))).
Proof.
  apply (@upload_blank_document nat blank_pdf fresh_world upload_S1 temp_file
           (lit "S1") [] (Some [0x01; 0x20; 0x0C]%N));
    try reflexivity.
  left. reflexivity.
Defined.

Lemma skipped_text_shifts_embeddings_witness :
  snd (embedTexts batch_down [lit "hello there, moon"; lit "hello world"]
         fresh_world)
  = Returned [11%nat]
  /\ nth_error (buildVectors (lit "S1") (lit "paper.pdf")
                  [lit "hello there, moon"; lit "hello world"] [11%nat]
                  (fun _ => lit "2024-01-01T00:00:00.000Z")) 0
     = Some {| rec_id := lit "S1" ++ lit "_" ++ decimal 0;
               rec_values := 11%nat;
               rec_metadata :=
                 {| meta_text := Some (lit "hello there, moon");
                    meta_source := lit "paper.pdf";
                    meta_chunk_index := 0;
                    meta_session_id := lit "S1";
                    meta_uploaded_at := lit "2024-01-01T00:00:00.000Z" |} |}.
Proof.
  apply (@skipped_text_shifts_embeddings nat batch_down fresh_world
           (lit "hello there, moon") (lit "hello world") 11%nat);
    try reflexivity; try discriminate.
  right. eexists. reflexivity.
Defined.

Lemma chunkText_validChunks_witness :
  filter (fun chunk => truthy chunk && negb (str_eqb (trim chunk) []))
    [repeat 0x61%N 1000; repeat 0x61%N 700]
  = [repeat 0x61%N 1000; repeat 0x61%N 700].
Proof.
  apply (@chunkText_validChunks (repeat 0x61%N 1500) 1000).
  vm_compute. reflexivity.
Defined.

(** ** Ingest step 5 in the upload handler *)

Lemma trim_blank text :
  truthy (trim text) = false -> count_surviving text = 0%nat.
Proof.
  intros H. unfold trim in H.
  rewrite <- (count_trimStart text), <- (count_trimEnd (trimStart text)).
  destruct (trimEnd (trimStart text)); [reflexivity | discriminate H].
Qed.

Lemma chunkText_chunks_valid text maxLen chunks :
  chunkText text maxLen = Some chunks ->
  Forall (fun chunk => truthy chunk && negb (str_eqb (trim chunk) []) = true)
    chunks.
Proof.
  intros H. unfold chunkText in H.
  eapply chunkText_loop_valid; [| constructor | exact H].
  intros chunk Ht. rewrite Ht. cbn [andb].
  pose proof (trim_nonempty _ Ht (cleanText_starts_clean chunk)) as Htrim.
  destruct (trim (cleanText chunk)); [discriminate | reflexivity].
Qed.

Lemma filter_all {A} (f : A -> bool) (l : list A) :
  Forall (fun x => f x = true) l -> filter f l = l.
Proof.
  induction 1 as [|x l Hx _ IH]; [reflexivity|].
  cbn [filter]. rewrite Hx, IH. reflexivity.
Qed.

Section Ingest.

Variable Vec : Type.
Variable O : Oracle Vec.

Lemma upsert_loop_all (vectors : list (VectorRecord Vec)) :
  (forall h records, upsert O h records = Resolves tt) ->
  forall starts w,
    upsert_loop O starts vectors w
    = ({| history :=
            history w
            ++ map (fun i => CallUpsert
                               (slice (Z.of_nat i) (Z.of_nat (i + 100)) vectors))
                 starts;
          files := files w |},
       Returned tt).
Proof.
  intros Hgood. induction starts as [|i rest IH]; intros w.
  - cbn [upsert_loop ret map]. rewrite app_nil_r, world_eta. reflexivity.
  - cbn [upsert_loop map]. unfold bind, call. rewrite Hgood, IH.
    cbn [history files]. rewrite <- app_assoc. reflexivity.
Qed.

(** The upload handler, once the stale vectors are dealt with, the file is
    read and parsed, the text gives chunks and [embedTexts] has returned,
    goes on from there with upserting the records of [buildVectors] for
    these chunks and embeddings, unlinking the file and answering with their
    number. *)
Lemma upload_reaches_upsert (w : World Vec) (req : UploadRequest)
  (file : File) (sessionId : jsstring) (data : bytes)
  (pdfText : option jsstring) (chunks : list jsstring)
  (w2 : World Vec) (embeddings : list Vec) :
  req_file req = Some file ->
  upload_sessionId req = Some sessionId ->
  truthy sessionId = true ->
  readFile O (history (fst (deleteSessionVectors O sessionId w)))
    (file_path file) = Resolves data ->
  pdfParse O
    (history (fst (deleteSessionVectors O sessionId w))
     ++ [CallReadFile Vec (file_path file)]) data
  = Resolves pdfText ->
  chunkText (match pdfText with Some t => t | None => [] end) 1000
  = Some chunks ->
  chunks <> [] ->
  embedTexts O chunks
    {| history :=
         (history (fst (deleteSessionVectors O sessionId w))
          ++ [CallReadFile Vec (file_path file)])
         ++ [CallPdfParse Vec data];
       files := files (fst (deleteSessionVectors O sessionId w)) |}
  = (w2, Returned embeddings) ->
  upload O req w
  = try_catch
      (upsert_loop O
         (for_indices
            (length (buildVectors sessionId (originalname file) chunks
                       embeddings (clock O (history w2)))) 100)
         (buildVectors sessionId (originalname file) chunks embeddings
            (clock O (history w2)));;
       unlink (file_path file);;
       ret (json 200
              (UploadBody
                 (len (buildVectors sessionId (originalname file) chunks
                         embeddings (clock O (history w2))))
                 sessionId)))
      (upload_catch req) w2.
Proof.
  intros Hfile Hsid Hts Hread Hparse Hchunks Hne Hembed.
  set (text := match pdfText with Some t => t | None => [] end) in *.
  assert (Htrim : truthy (trim text) = true).
  { destruct (truthy (trim text)) eqn:E; [reflexivity|].
    apply trim_blank in E.
    pose proof (chunkText_blank _ _ E Hchunks). congruence. }
  assert (Hvalid : filter (fun chunk =>
                     truthy chunk && negb (str_eqb (trim chunk) [])) chunks
                   = chunks).
  { apply filter_all. eapply chunkText_chunks_valid. exact Hchunks. }
  assert (Hlen : (len chunks =? 0) = false).
  { destruct chunks; [congruence | reflexivity]. }
  unfold upload, upload_try. rewrite Hfile, Hsid, Hts. cbn [negb].
  unfold try_catch, bind at 1.
  destruct (deleteSessionVectors_returns O sessionId w) as [[] Hret].
  destruct (deleteSessionVectors O sessionId w) as [w1 out].
  cbn [fst snd] in *. subst out.
  assert (Hproc : upload_process O file sessionId w1
                  = (upsert_loop O
                       (for_indices
                          (length (buildVectors sessionId (originalname file)
                                     chunks embeddings (clock O (history w2))))
                          100)
                       (buildVectors sessionId (originalname file) chunks
                          embeddings (clock O (history w2)));;
                     unlink (file_path file);;
                     ret (json 200
                            (UploadBody
                               (len (buildVectors sessionId (originalname file)
                                       chunks embeddings
                                       (clock O (history w2))))
                               sessionId))) w2).
  { unfold upload_process, path_resolve. cbv zeta.
    unfold bind at 1, call. rewrite Hread.
    unfold bind at 1, call. cbn [history files]. rewrite Hparse. fold text.
    rewrite Htrim. cbn [negb]. rewrite Hchunks, Hvalid, Hlen.
    unfold bind at 1.
    match goal with
    | |- context [embedTexts ?o ?c ?w0] =>
      replace (embedTexts o c w0)
        with (w2, Returned embeddings : Outcome (list Vec))
        by (symmetry; exact Hembed)
    end.
    unfold bind at 1. reflexivity. }
  match goal with
  | |- context [upload_process ?o ?f ?s0 ?w0] =>
    replace (upload_process o f s0 w0) with
      ((upsert_loop O
          (for_indices
             (length (buildVectors sessionId (originalname file)
                        chunks embeddings (clock O (history w2))))
             100)
          (buildVectors sessionId (originalname file) chunks
             embeddings (clock O (history w2)));;
        unlink (file_path file);;
        ret (json 200
               (UploadBody
                  (len (buildVectors sessionId (originalname file)
                          chunks embeddings (clock O (history w2))))
                  sessionId))) w2)
      by (symmetry; exact Hproc)
  end.
  reflexivity.
Qed.

(** C9: in the upload handler, once the text is chunked and [embedTexts]
    has returned, step 5 builds the records of these chunks and embeddings:
    exactly min(#chunks, #embeddings) of them, record [i] pairing chunk
    [i] with embedding [i] under the id [sessionId_i] with the chunk text,
    the file's original name, the index [i], the session id and the time
    read for it; these records are what the handler then upserts; and when
    every upsert succeeds and the file is there to unlink, the upserts carry
    them all, in batches of 100, and the answer is 200 with their number. *)
Theorem upload_builds_vectors (w : World Vec) (req : UploadRequest)
  (file : File) (sessionId : jsstring) (data : bytes)
  (pdfText : option jsstring) (chunks : list jsstring)
  (w2 : World Vec) (embeddings : list Vec) :
  req_file req = Some file ->
  upload_sessionId req = Some sessionId ->
  truthy sessionId = true ->
  let w1 := fst (deleteSessionVectors O sessionId w) in
  let read := history w1 ++ [CallReadFile Vec (file_path file)] in
  let parsed := read ++ [CallPdfParse Vec data] in
  readFile O (history w1) (file_path file) = Resolves data ->
  pdfParse O read data = Resolves pdfText ->
  chunkText (match pdfText with Some t => t | None => [] end) 1000
  = Some chunks ->
  chunks <> [] ->
  embedTexts O chunks {| history := parsed; files := files w1 |}
  = (w2, Returned embeddings) ->
  let n := Nat.min (length chunks) (length embeddings) in
  let vectors :=
    buildVectors sessionId (originalname file) chunks embeddings
      (clock O (history w2)) in
  (length vectors = n
   /\ forall i, (i < n)%nat ->
        exists chunk emb,
          nth_error chunks i = Some chunk /\
          nth_error embeddings i = Some emb /\
          nth_error vectors i
          = Some {| rec_id := sessionId ++ lit "_" ++ decimal i;
                    rec_values := emb;
                    rec_metadata :=
                      {| meta_text := Some chunk;
                         meta_source := originalname file;
                         meta_chunk_index := i;
                         meta_session_id := sessionId;
                         meta_uploaded_at := clock O (history w2) i |} |})
  /\ upload O req w
     = try_catch
         (upsert_loop O (for_indices (length vectors) 100) vectors;;
          unlink (file_path file);;
          ret (json 200 (UploadBody (len vectors) sessionId)))
         (upload_catch req) w2
  /\ ((forall h records, upsert O h records = Resolves tt) ->
      In (file_path file) (files w) ->
      upload O req w
      = ({| history :=
              history w2
              ++ map (CallUpsert (Vec := Vec)) (batches_of 100 vectors)
              ++ [CallUnlink Vec (file_path file)];
            files :=
              filter (fun p => negb (str_eqb (file_path file) p)) (files w) |},
         Returned (json 200 (UploadBody (Z.of_nat n) sessionId)))).
Proof.
  intros Hfile Hsid Hts w1 read parsed Hread Hparse Hchunks Hne Hembed
    n vectors.
  pose proof (buildVectors_aligned sessionId (originalname file) chunks
                embeddings (clock O (history w2))) as Haligned.
  cbv zeta in Haligned. fold n vectors in Haligned.
  pose proof (@upload_reaches_upsert w req file sessionId data pdfText chunks
                w2 embeddings Hfile Hsid Hts Hread Hparse Hchunks Hne Hembed)
    as Hstep.
  fold vectors in Hstep.
  split; [exact Haligned|]. split; [exact Hstep|].
  intros Hgood Hin. rewrite Hstep.
  assert (Hfiles : files w2 = files w).
  { destruct (embedTexts_try_emits O chunks
                {| history := parsed; files := files w1 |})
      as [evs [Hw _]].
    destruct (deleteSessionVectors_only_deletes O sessionId w)
      as [evs1 [Hw1 _]].
    replace (fst (embedTexts O chunks
                    {| history := parsed; files := files w1 |}))
      with w2 in Hw by (rewrite Hembed; reflexivity).
    rewrite Hw. cbn [files]. unfold w1. rewrite Hw1. reflexivity. }
  assert (Hthere : existsb (str_eqb (file_path file)) (files w2) = true).
  { rewrite Hfiles. apply existsb_exists. exists (file_path file).
    split; [exact Hin | apply str_eqb_refl]. }
  unfold try_catch, bind at 1. rewrite (upsert_loop_all vectors Hgood).
  unfold bind, unlink. cbn [history files]. rewrite Hthere, Hfiles.
  cbn [ret]. unfold batches_of. rewrite map_map, <- app_assoc.
  unfold len. rewrite (proj1 Haligned). reflexivity.
Qed.

End Ingest.

Lemma upload_builds_vectors_witness :
  (length (buildVectors (lit "S1") (lit "paper.pdf")
             [lit "hello world, hello"] [18%nat]
             (clock healthy (history healthy_embedded)))
   = Nat.min (length [lit "hello world, hello"]) (length [18%nat])
   /\ forall i,
        (i < Nat.min (length [lit "hello world, hello"]) (length [18%nat]))%nat ->
        exists chunk emb,
          nth_error [lit "hello world, hello"] i = Some chunk /\
          nth_error [18%nat] i = Some emb /\
          nth_error
            (buildVectors (lit "S1") (lit "paper.pdf")
               [lit "hello world, hello"] [18%nat]
               (clock healthy (history healthy_embedded))) i
          = Some {| rec_id := lit "S1" ++ lit "_" ++ decimal i;
                    rec_values := emb;
                    rec_metadata :=
                      {| meta_text := Some chunk;
                         meta_source := lit "paper.pdf";
                         meta_chunk_index := i;
                         meta_session_id := lit "S1";
                         meta_uploaded_at :=
                           clock healthy (history healthy_embedded) i |} |})
  /\ upload healthy upload_S1 fresh_world
     = ({| history :=
             history healthy_embedded
             ++ map (CallUpsert (Vec := nat))
                  (batches_of 100
                     (buildVectors (lit "S1") (lit "paper.pdf")
                        [lit "hello world, hello"] [18%nat]
                        (clock healthy (history healthy_embedded))))
             ++ [CallUnlink nat (lit "uploads/3f2a")];
           files :=
             filter (fun p => negb (str_eqb (lit "uploads/3f2a") p))
               (files fresh_world) |},
        Returned (json 200
          (UploadBody
             (Z.of_nat (Nat.min (length [lit "hello world, hello"])
                          (length [18%nat])))
             (lit "S1")))).
Proof.
  destruct (@upload_builds_vectors nat healthy fresh_world upload_S1 temp_file
              (lit "S1") [] (Some (lit "hello world, hello"))
              [lit "hello world, hello"] healthy_embedded [18%nat]
              eq_refl eq_refl eq_refl eq_refl eq_refl eq_refl
              ltac:(discriminate) eq_refl)
    as [Hrecords [_ Hrun]].
  split; [exact Hrecords|].
  apply Hrun; [intros h records; reflexivity | left; reflexivity].
Defined.
